(** * Service-Providers status bot (serviceproviders.py): a shallow embedding

    The bot keeps one SQLite table [webhooks] with primary key
    [(guild_id, service)], polls three Statuspage JSON endpoints per
    service, renders a Discord embed and posts it to per-server webhooks.
    It also offers owner-only bulk-messaging commands.

    Modelling choices:
    - the table is a finite map from its primary key to the other
      columns (SQLite enforces the key, so at most one row per key);
    - text is [String.string] holding the UTF-8 encoding of Python's
      [str]; where the code takes [len] of a text or slices it, the
      model counts and slices code points ([py_len], [py_prefix]);
    - network, Discord and HTTP replies are oracles (Section variables);
      every effect a handler performs is recorded in an event trace;
    - Python exceptions that escape a handler are a [Crash] result;
    - the wall-clock timestamp of embeds is not modelled. *)

From Stdlib Require Import QArith.
From stdpp Require Import base gmap strings list fin_maps pretty.

(* ------------------------------------------------------------------ *)
(** ** The [webhooks] table *)

(** Non-key columns of a row of
    [CREATE TABLE webhooks (guild_id, channel_id, webhook_url, service,
    ping_role_id, enabled INTEGER DEFAULT 1, last_incident_id,
    PRIMARY KEY (guild_id, service))]. *)
Record Row := mkRow {
  channel_id : Z;
  webhook_url : string;
  ping_role_id : option Z;        (* NULL = None *)
  enabled : Z;                    (* SQLite INTEGER, 1 = enabled *)
  last_incident_id : option string (* NULL = never notified *)
}.

(** Primary key [(guild_id, service)]. *)
Abbreviation Key := (Z * string)%type.

Abbreviation Store := (gmap Key Row).

Definition key_guild (k : Key) : Z := fst k.
Definition key_service (k : Key) : string := snd k.

Definition set_last_incident (r : Row) (id : option string) : Row :=
  mkRow (channel_id r) (webhook_url r) (ping_role_id r) (enabled r) id.

Definition set_enabled (r : Row) (e : Z) : Row :=
  mkRow (channel_id r) (webhook_url r) (ping_role_id r) e (last_incident_id r).

(** [UPDATE webhooks SET last_incident_id = ? WHERE guild_id = ? AND service = ?]:
    changes the row with that key if there is one, nothing otherwise. *)
Definition sql_update_last_incident (k : Key) (id : option string) (st : Store) : Store :=
  alter (fun r => set_last_incident r id) k st.

(** [UPDATE webhooks SET enabled = ? WHERE guild_id = ? AND service = ?]. *)
Definition sql_update_enabled (k : Key) (e : Z) (st : Store) : Store :=
  alter (fun r => set_enabled r e) k st.

(** [INSERT OR REPLACE INTO webhooks (...) VALUES (?, ?, ?, ?, ?, 1, NULL)]:
    SQLite deletes the row that conflicts on the primary key, then inserts. *)
Definition sql_insert_or_replace (k : Key) (r : Row) (st : Store) : Store :=
  <[k := r]> (delete k st).

(** [SELECT * FROM webhooks WHERE enabled = 1]; the row order of SQLite
    is left open (any permutation of the map's bindings). *)
Definition select_enabled (st : Store) : list (Key * Row) :=
  filter (fun kr => enabled kr.2 = 1%Z) (map_to_list st).

(** Python truthiness of [not result[0]] stored back as an integer:
    [True] is stored as 1 and [False] as 0. *)
Definition py_not_int (z : Z) : Z := if Z.eqb z 0 then 1%Z else 0%Z.

(* ------------------------------------------------------------------ *)
(** ** Configuration commands *)

(** Replies of the configuration commands. *)
Inductive Reply :=
  | ReplyNeedManageWebhooks          (* "You need 'Manage Webhooks' permission ..." *)
  | ReplyNoWebhookFound (svc : string) (* "No webhook found for {Service}" *)
  | ReplyToggled (svc : string) (now_enabled : bool)
  | ReplySetupComplete (svc : string) (ping : option Z)
  | ReplyCannotCreateWebhook         (* discord.Forbidden from create_webhook *)
  | ReplySetupError.                 (* any other exception *)

(** Outcome of [channel.create_webhook(...)]: the new webhook's URL, or
    the exception it raised. *)
Inductive CreateWebhook :=
  | WebhookCreated (url : string)
  | WebhookForbidden
  | WebhookError.

(** [setup_webhook(interaction, channel, service, ping_role)]. *)
Definition setup_webhook (manage_webhooks : bool) (guild : Z) (channel : Z)
    (service : string) (ping_role : option Z) (created : CreateWebhook)
    (st : Store) : Store * Reply :=
  if negb manage_webhooks then (st, ReplyNeedManageWebhooks) else
  match created with
  | WebhookForbidden => (st, ReplyCannotCreateWebhook)
  | WebhookError => (st, ReplySetupError)
  | WebhookCreated url =>
      let ping_role_id := ping_role in
      (sql_insert_or_replace (guild, service)
         (mkRow channel url ping_role_id 1 None) st,
       ReplySetupComplete service ping_role)
  end.

(** [toggle_webhook(interaction, service)]. *)
Definition toggle_webhook (manage_webhooks : bool) (guild : Z) (service : string)
    (st : Store) : Store * Reply :=
  if negb manage_webhooks then (st, ReplyNeedManageWebhooks) else
  match st !! (guild, service) with
  | None => (st, ReplyNoWebhookFound service)
  | Some r =>
      let new_status := py_not_int (enabled r) in
      (sql_update_enabled (guild, service) new_status st,
       ReplyToggled service (negb (Z.eqb new_status 0)))
  end.


(* ------------------------------------------------------------------ *)
(** ** Python string helpers *)

Definition nl : string := String (Ascii.ascii_of_nat 10) EmptyString.

Definition ascii_upper (c : Ascii.ascii) : Ascii.ascii :=
  let n := Ascii.nat_of_ascii c in
  if (97 <=? n)%nat && (n <=? 122)%nat then Ascii.ascii_of_nat (n - 32) else c.

Definition ascii_lower (c : Ascii.ascii) : Ascii.ascii :=
  let n := Ascii.nat_of_ascii c in
  if (65 <=? n)%nat && (n <=? 90)%nat then Ascii.ascii_of_nat (n + 32) else c.

Fixpoint lower_string (s : string) : string :=
  match s with
  | EmptyString => EmptyString
  | String c s' => String (ascii_lower c) (lower_string s')
  end.

(** [str.capitalize()]: first character upper case, the rest lower case. *)
Definition capitalize (s : string) : string :=
  match s with
  | EmptyString => EmptyString
  | String c s' => String (ascii_upper c) (lower_string s')
  end.

(** A substring relation: [s] occurs in [t]. *)
Definition contains (t s : string) : Prop := exists p q, t = p +:+ s +:+ q.

(* ------------------------------------------------------------------ *)
(** ** Status snapshot and [create_status_embed] *)

(** [data['status']['status']]. *)
Record StatusObj := mkStatusObj {
  st_description : string;
  st_indicator : string
}.

(** One element of [data['incidents']]: [None] marks an absent key.
    [inc_updates] is the list [incident_updates], each element given by
    its [body] (absent = [None]). *)
Record Incident := mkIncident {
  inc_id : option string;
  inc_name : option string;
  inc_status : option string;
  inc_updates : option (list (option string))
}.

(** One element of [data['components']]. *)
Record Component := mkComponent {
  comp_name : option string;
  comp_status : option string
}.

(** The dictionary returned by [get_service_data], decoded. Incidents
    are newest first, as Statuspage lists them. *)
Record Snapshot := mkSnapshot {
  snap_status : StatusObj;
  snap_incidents : list Incident;
  snap_components : list Component
}.

Record Field := mkField { field_name : string; field_value : string; field_inline : bool }.

Record Embed := mkEmbed {
  embed_title : string;
  embed_description : string;
  embed_color : Z;
  embed_fields : list Field;
  embed_footer : string
}.

(** A Python [str] is held as its UTF-8 encoding.  A byte 0x80-0xBF
    continues the code point begun by an earlier byte; every other byte
    begins a code point. *)
Definition utf8_cont (c : Ascii.ascii) : bool :=
  let n := Ascii.nat_of_ascii c in (128 <=? n)%nat && (n <? 192)%nat.

(** [len(s)]: the number of code points. *)
Fixpoint py_len (s : string) : nat :=
  match s with
  | EmptyString => 0
  | String c s' => (if utf8_cont c then 0 else 1) + py_len s'
  end.

(** [s[:n]]: the bytes of the first [n] code points. *)
Fixpoint py_prefix (n : nat) (s : string) : string :=
  match s with
  | EmptyString => EmptyString
  | String c s' =>
      if utf8_cont c then String c (py_prefix n s')
      else match n with
           | O => EmptyString
           | S m => String c (py_prefix m s')
           end
  end.

(** [if len(update) > 200: update = update[:200] + "..."]. *)
Definition truncate_update (update : string) : string :=
  if (200 <? py_len update)%nat then py_prefix 200 update +:+ "..." else update.

(** [incident.get('incident_updates', [{}])[0].get('body', '')];
    [None] is the [IndexError] raised on an empty update list. *)
Definition latest_update (inc : Incident) : option string :=
  match default [None] (inc_updates inc) with
  | [] => None
  | u :: _ => Some (default "" u)
  end.

(** Text of one incident in the loop over [data['incidents'][:3]]. *)
Definition incident_entry (inc : Incident) : option string :=
  match latest_update inc with
  | None => None
  | Some update =>
      let name := default "Unnamed incident" (inc_name inc) in
      let status := default "unknown" (inc_status inc) in
      let head := "**" +:+ name +:+ "** (" +:+ status +:+ ")" +:+ nl in
      Some (if String.eqb update "" then head
            else head +:+ truncate_update update +:+ nl +:+ nl)
  end.

(** [incident_text += ...] over the list; [None] if an entry raises. *)
Fixpoint incidents_text (incs : list Incident) (acc : string) : option string :=
  match incs with
  | [] => Some acc
  | inc :: rest =>
      match incident_entry inc with
      | None => None
      | Some e => incidents_text rest (acc +:+ e)
      end
  end.

(** [f"• {comp['name']}: {comp['status']}\n"]; [comp[...]] raises
    [KeyError] on an absent key. *)
Definition component_entry (c : Component) : option string :=
  match comp_name c, comp_status c with
  | Some n, Some s => Some ("‚Ä¢ " +:+ n +:+ ": " +:+ s +:+ nl)
  | _, _ => None
  end.

Fixpoint components_text (cs : list Component) (acc : string) : option string :=
  match cs with
  | [] => Some acc
  | c :: rest =>
      match component_entry c with
      | None => None
      | Some e => components_text rest (acc +:+ e)
      end
  end.

Definition is_operational (c : Component) : bool :=
  match comp_status c with Some s => String.eqb s "operational" | None => false end.

Definition status_color (indicator : string) : Z :=
  if String.eqb indicator "none" then 0x00ff00%Z
  else if String.eqb indicator "minor" then 0xffff00%Z
  else 0xff0000%Z.

(** [StatusBot.create_status_embed(service_name, data)]; [None] when it
    raises. *)
Definition create_status_embed (service_name : string) (data : Snapshot) : option Embed :=
  let status := snap_status data in
  let color := status_color (st_indicator status) in
  let incidents := firstn 3 (snap_incidents data) in
  let incident_field :=
    match incidents with
    | [] => Some (mkField "Incidents" "No current incidents" false)
    | _ :: _ =>
        match incidents_text incidents "" with
        | None => None
        | Some t => Some (mkField "Recent Incidents" t false)
        end
    end in
  let bad_components := filter (fun c => negb (is_operational c)) (snap_components data) in
  let component_field :=
    match bad_components with
    | [] => Some (mkField "Components" "All systems operational" false)
    | _ :: _ =>
        match components_text (firstn 5 bad_components) "" with
        | None => None
        | Some t => Some (mkField "Affected Components" t false)
        end
    end in
  match incident_field, component_field with
  | Some f1, Some f2 =>
      Some (mkEmbed (capitalize service_name +:+ " Status")
                    ("**Overall Status:** " +:+ st_description status)
                    color [f1; f2] "Last updated")
  | _, _ => None
  end.

(* ------------------------------------------------------------------ *)
(** ** Status source: [StatusBot.get_service_data] *)

(** A JSON value as [json.loads] produces it. *)
#[warnings="-register-all"]
Inductive Json :=
  | JNull
  | JBool (b : bool)
  | JNum (z : Z)
  | JStr (s : string)
  | JArr (l : list Json)
  | JObj (fields : list (string * Json)).

(** The body of a response as [aiohttp.ClientResponse.json()] reads it. *)
Inductive Body :=
  | BodyEmpty
  | BodyJson (j : Json)
  | BodyMalformed.

(** Outcome of [self.session.get(url)]: an exception (network error), or
    a response with its HTTP status, whether its content type is
    [application/json], and its body. *)
Inductive GetOutcome :=
  | GetNetError
  | GetResponse (status : Z) (json_content_type : bool) (body : Body).

(** [await resp.json()]: raises ([None]) on a network error, a content
    type other than JSON ([ContentTypeError]) or a malformed body; an
    empty body gives [None] in Python, i.e. [JNull]. The status code is
    not looked at. *)
Definition resp_json (o : GetOutcome) : option Json :=
  match o with
  | GetNetError => None
  | GetResponse _ ct body =>
      if negb ct then None
      else match body with
           | BodyEmpty => Some JNull
           | BodyJson j => Some j
           | BodyMalformed => None
           end
  end.

(** Lookup in a JSON object; a Python dict built from it keeps the last
    of duplicate keys. *)
Fixpoint json_lookup (key : string) (fields : list (string * Json)) : option Json :=
  match fields with
  | [] => None
  | (k, v) :: rest =>
      match json_lookup key rest with
      | Some v' => Some v'
      | None => if String.eqb k key then Some v else None
      end
  end.

(** [j.get(key, dflt)]; [None] is the [AttributeError] of a non-dict. *)
Definition py_get (j : Json) (key : string) (dflt : Json) : option Json :=
  match j with
  | JObj fields => Some (default dflt (json_lookup key fields))
  | _ => None
  end.

(** [SERVICES.get(service_name)]. *)
Definition SERVICES (service_name : string) : option string :=
  if String.eqb service_name "vercel" then Some "https://vercel.statuspage.io/api/v2"
  else if String.eqb service_name "cloudflare" then Some "https://www.cloudflarestatus.com/api/v2"
  else if String.eqb service_name "netlify" then Some "https://www.netlifystatus.com/api/v2"
  else None.

(** The dictionary [get_service_data] returns, before decoding. *)
Record RawSnapshot := mkRawSnapshot {
  raw_status : Json;
  raw_incidents : Json;
  raw_components : Json
}.

Section Fetch.
(** The HTTP session: the outcome of a GET on a URL. *)
Variable http_get : string -> GetOutcome.

(** [StatusBot.get_service_data(service_name)]; [None] is both the
    unknown-service result and the [except Exception] result. *)
Definition get_service_data (service_name : string) : option RawSnapshot :=
  match SERVICES service_name with
  | None => None
  | Some url =>
      match resp_json (http_get (url +:+ "/status.json")) with
      | None => None
      | Some status =>
          match resp_json (http_get (url +:+ "/incidents.json")) with
          | None => None
          | Some incidents_data =>
              match resp_json (http_get (url +:+ "/components.json")) with
              | None => None
              | Some components_data =>
                  match py_get incidents_data "incidents" (JArr []),
                        py_get components_data "components" (JArr []) with
                  | Some incidents, Some components =>
                      Some (mkRawSnapshot status incidents components)
                  | _, _ => None
                  end
              end
          end
      end
  end.
End Fetch.

(* ------------------------------------------------------------------ *)
(** ** The incident poller: [StatusBot.check_and_post_incidents] *)

(** Outcome of [self.session.post(webhook_url, json=webhook_data)]: the
    response's HTTP status, or an exception (network error). *)
Inductive PostOutcome :=
  | PostStatus (code : Z)
  | PostError.

(** [webhook_data = {"embeds": [...], "content"?: ...}]. *)
Record Payload := mkPayload {
  payload_embeds : list Embed;
  payload_content : option string
}.

(** Effects of one tick, in order. *)
Inductive Event :=
  | EvFetch (k : Key)                                   (* get_service_data(service) for row k *)
  | EvPost (k : Key) (url : string) (p : Payload) (o : PostOutcome)
  | EvUpdate (k : Key) (id : option string).            (* UPDATE ... SET last_incident_id *)

Definition event_key (e : Event) : Key :=
  match e with EvFetch k | EvPost k _ _ _ | EvUpdate k _ => k end.

(** The events of a trace that concern the row with key [k]. *)
Definition events_of (k : Key) (tr : list Event) : list Event :=
  filter (fun e => event_key e = k) tr.

Definition is_post (e : Event) : bool :=
  match e with EvPost _ _ _ _ => true | _ => false end.

Definition is_fetch (e : Event) : bool :=
  match e with EvFetch _ => true | _ => false end.

Definition is_update (e : Event) : bool :=
  match e with EvUpdate _ _ => true | _ => false end.

(** A POST answered [204 No Content], the only outcome the poller
    treats as delivered. *)
Definition is_accepted_post (e : Event) : bool :=
  match e with EvPost _ _ _ (PostStatus code) => Z.eqb code 204 | _ => false end.

(** Number of accepted deliveries for row [k] in a trace. *)
Definition accepted_posts (k : Key) (tr : list Event) : nat :=
  length (filter (fun e => is_accepted_post e = true) (events_of k tr)).

(** Number of marker updates for row [k] in a trace. *)
Definition marker_updates (k : Key) (tr : list Event) : nat :=
  length (filter (fun e => is_update e = true) (events_of k tr)).

(** Python truthiness of [ping_role_id] (NULL and 0 are false). *)
Definition ping_set (p : option Z) : option Z :=
  match p with Some z => if Z.eqb z 0 then None else Some z | None => None end.

(** [webhook_data] built for one row. *)
Definition webhook_payload (service : string) (ping_role_id : option Z) (e : Embed) : Payload :=
  mkPayload [e]
    (match ping_set ping_role_id with
     | Some role => Some ("<@&" +:+ pretty role +:+ "> " +:+ capitalize service +:+ " status update!")
     | None => None
     end).

Section Poller.
(** [get_service_data(service)], decoded; [None] is its failure value. *)
Variable fetch : string -> option Snapshot.
(** The webhook endpoint's answer to a POST. *)
Variable post : Key -> string -> Payload -> PostOutcome.

(** The body of [for config in webhook_configs:] for one row. The
    boolean is [true] when an exception escapes the loop body (only
    [create_status_embed] can raise outside a [try]), which ends the
    tick; updates committed before stay committed. *)
Definition process_config (kr : Key * Row) (st : Store) : Store * list Event * bool :=
  let '(k, r) := kr in
  let service := key_service k in
  match fetch service with
  | None => (st, [EvFetch k], false)
  | Some data =>
      match snap_incidents data with
      | [] => (st, [EvFetch k], false)
      | latest_incident :: _ =>
          let latest_incident_id := inc_id latest_incident in
          if decide (latest_incident_id = last_incident_id r) then (st, [EvFetch k], false)
          else
            match create_status_embed service data with
            | None => (st, [EvFetch k], true)
            | Some embed =>
                let webhook_data := webhook_payload service (ping_role_id r) embed in
                let o := post k (webhook_url r) webhook_data in
                match o with
                | PostStatus code =>
                    if Z.eqb code 204 then
                      (sql_update_last_incident k latest_incident_id st,
                       [EvFetch k; EvPost k (webhook_url r) webhook_data o;
                        EvUpdate k latest_incident_id], false)
                    else (st, [EvFetch k; EvPost k (webhook_url r) webhook_data o], false)
                | PostError => (st, [EvFetch k; EvPost k (webhook_url r) webhook_data o], false)
                end
            end
      end
  end.

Fixpoint run_configs (cfgs : list (Key * Row)) (st : Store) : Store * list Event * bool :=
  match cfgs with
  | [] => (st, [], false)
  | kr :: rest =>
      let '(st1, ev1, crashed) := process_config kr st in
      if crashed then (st1, ev1, true)
      else let '(st2, ev2, c2) := run_configs rest st1 in (st2, ev1 ++ ev2, c2)
  end.

(** One tick: read the enabled rows, then process them in turn. *)
Definition check_and_post_incidents (st : Store) : Store * list Event * bool :=
  run_configs (select_enabled st) st.
End Poller.

(* ------------------------------------------------------------------ *)
(** ** Owner-only bulk sending: [send_message] *)

(** Outcome of one [await channel.send(...)]. *)
Inductive SendOutcome :=
  | SendOk
  | SendForbidden                 (* discord.Forbidden *)
  | SendHTTPError (status : Z)    (* another discord.HTTPException *)
  | SendOtherError.               (* any other exception *)

(** Effects on the destination: a send attempt (numbered by the loop
    index [i]) or an [asyncio.sleep]. *)
Inductive ChanEvent :=
  | ChSend (i : nat) (content : string)
  | ChSleep (seconds : Q).

(** The follow-up or immediate reply of a bulk-send command. *)
Inductive SendReply :=
  | ReplyCountOutOfRange          (* "Count must be between 1 and 50." *)
  | ReplyNegativeDelay            (* "Delay cannot be negative." *)
  | ReplySent (sent count failed : Z) (ultra_fast : bool).

Definition Qpos (q : Q) : bool := negb (Qle_bool q 0).

(** The attempt indices of a trace, in order. *)
Definition attempts (tr : list ChanEvent) : list nat :=
  omap (fun e => match e with ChSend i _ => Some i | ChSleep _ => None end) tr.

Definition sleeps (tr : list ChanEvent) : list Q :=
  omap (fun e => match e with ChSleep d => Some d | ChSend _ _ => None end) tr.

Section SendMessage.
(** [send i]: what the destination does with the [i]-th send. *)
Variable send : nat -> SendOutcome.

(** [for i in range(count): try: ... except ...:] from index [i] with
    [n] iterations left; [break] on [discord.Forbidden]. *)
Fixpoint send_loop (message : string) (count : Z) (delay : Q) (i n : nat)
    (sent_count failed_count : Z) : list ChanEvent * Z * Z :=
  match n with
  | O => ([], sent_count, failed_count)
  | S n' =>
      match send i with
      | SendOk =>
          let pause := if Qpos delay && (Z.of_nat i <? count - 1)%Z then [ChSleep delay] else [] in
          let '(tr, s, f) := send_loop message count delay (S i) n' (sent_count + 1)%Z failed_count in
          (ChSend i message :: pause ++ tr, s, f)
      | SendForbidden => ([ChSend i message], sent_count, (failed_count + 1)%Z)
      | SendHTTPError status =>
          let pause := if Z.eqb status 429 then [ChSleep 1%Q] else [] in
          let '(tr, s, f) := send_loop message count delay (S i) n' sent_count (failed_count + 1)%Z in
          (ChSend i message :: pause ++ tr, s, f)
      | SendOtherError =>
          let '(tr, s, f) := send_loop message count delay (S i) n' sent_count (failed_count + 1)%Z in
          (ChSend i message :: tr, s, f)
      end
  end.

(** The body of [send_message(interaction, channel, message, count, delay)]
    once the owner check has passed. *)
Definition send_message (message : string) (count : Z) (delay : Q) : list ChanEvent * SendReply :=
  if (count <? 1)%Z || (50 <? count)%Z then ([], ReplyCountOutOfRange)
  else if negb (Qle_bool 0 delay) then ([], ReplyNegativeDelay)
  else
    let '(tr, sent_count, failed_count) :=
      send_loop message count delay 0 (Z.to_nat count) 0 0 in
    (tr, ReplySent sent_count count failed_count (Qeq_bool delay 0 && (1 <? count)%Z)).
End SendMessage.

(* ------------------------------------------------------------------ *)
(** ** Owner-only bulk sending: [multi_send] *)

Record Channel := mkChannel { chan_id : Z; can_send : bool }.

(** What [bot.get_guild(id)] returns: the guild's name, its system
    channel and its text channels, each with whether [guild.me] may send
    there. *)
Record Guild := mkGuild {
  guild_name : string;
  system_channel : option Channel;
  text_channels : list Channel
}.

(** The per-server line stored in [results[guild_id]]. *)
Inductive GuildResult :=
  | GuildNotFound                                  (* "Server not found or bot not in server" *)
  | GuildNoChannel (name : string)                 (* f"No accessible channel in {guild.name}" *)
  | GuildAllSent (name : string) (sent count : Z)  (* f"{guild.name}: {sent}/{count} sent" *)
  | GuildPartial (name : string) (sent count failed : Z).

(** The message sent: plain text, or an embed with this description and footer. *)
Inductive MultiPayload :=
  | MultiPlain (message : string)
  | MultiEmbed (description footer : string).

Inductive MultiEvent :=
  | MSend (guild_id channel : Z) (i : nat) (p : MultiPayload)
  | MSleep (seconds : Q).

Inductive MultiReply :=
  | MultiCountOutOfRange       (* "Count must be between 1 and 20." *)
  | MultiNegativeDelay
  | MultiBadIdFormat           (* "Invalid server ID format. ..." *)
  | MultiTooManyServers        (* "Maximum 20 servers allowed per command." *)
  | MultiResults (results : list (Z * GuildResult)) (total_sent total_failed : Z) (ultra_fast : bool).

(** [results[guild_id] = v] on an insertion-ordered Python dict. *)
Fixpoint dict_set (k : Z) (v : GuildResult) (d : list (Z * GuildResult)) : list (Z * GuildResult) :=
  match d with
  | [] => [(k, v)]
  | (k', v') :: rest => if Z.eqb k k' then (k, v) :: rest else (k', v') :: dict_set k v rest
  end.

Fixpoint dict_get (k : Z) (d : list (Z * GuildResult)) : option GuildResult :=
  match d with
  | [] => None
  | (k', v') :: rest => if Z.eqb k k' then Some v' else dict_get k rest
  end.

(** System channel if the bot may send there, else the first text
    channel where it may. *)
Definition pick_channel (g : Guild) : option Channel :=
  match system_channel g with
  | Some c => if can_send c then Some c else List.find can_send (text_channels g)
  | None => List.find can_send (text_channels g)
  end.

Record MultiState := mkMultiState {
  results : list (Z * GuildResult);
  total_sent : Z;
  total_failed : Z;
  mtrace : list MultiEvent
}.

Section MultiSend.
(** [bot.get_guild(guild_id)]. *)
Variable get_guild : Z -> option Guild.
(** The outcome of the [i]-th send to a channel of a guild. *)
Variable msend : Z -> Z -> nat -> SendOutcome.

Variable message : string.
Variable embed_format : bool.
Variable count : Z.
Variable delay : Q.

Definition multi_payload (g : Guild) (i : nat) : MultiPayload :=
  if embed_format then
    MultiEmbed message
      ("Sent to " +:+ guild_name g +:+ " " +:+
       (if (1 <? count)%Z then "(" +:+ pretty (S i) +:+ "/" +:+ pretty count +:+ ")" else ""))
  else MultiPlain message.

(** [for i in range(count):] for one guild; [discord.Forbidden] is a
    [discord.HTTPException] here and does not stop the loop. *)
Fixpoint guild_sends (gid : Z) (g : Guild) (ch : Channel) (i n : nat) (sent failed : Z)
    : list MultiEvent * Z * Z :=
  match n with
  | O => ([], sent, failed)
  | S n' =>
      let ev := MSend gid (chan_id ch) i (multi_payload g i) in
      match msend gid (chan_id ch) i with
      | SendOk =>
          let pause := if Qpos delay && (Z.of_nat i <? count - 1)%Z then [MSleep delay] else [] in
          let '(tr, s, f) := guild_sends gid g ch (S i) n' (sent + 1)%Z failed in
          (ev :: pause ++ tr, s, f)
      | SendForbidden =>
          let '(tr, s, f) := guild_sends gid g ch (S i) n' sent (failed + 1)%Z in
          (ev :: tr, s, f)
      | SendHTTPError status =>
          let pause := if Z.eqb status 429 then [MSleep 1%Q] else [] in
          let '(tr, s, f) := guild_sends gid g ch (S i) n' sent (failed + 1)%Z in
          (ev :: pause ++ tr, s, f)
      | SendOtherError =>
          let '(tr, s, f) := guild_sends gid g ch (S i) n' sent (failed + 1)%Z in
          (ev :: tr, s, f)
      end
  end.

(** One iteration of [for guild_id in guild_ids:]; [n_ids] is [len(guild_ids)]. *)
Definition multi_step (n_ids : nat) (ms : MultiState) (gid : Z) : MultiState :=
  match get_guild gid with
  | None =>
      mkMultiState (dict_set gid GuildNotFound (results ms)) (total_sent ms)
        (total_failed ms + count)%Z (mtrace ms)
  | Some g =>
      match pick_channel g with
      | None =>
          mkMultiState (dict_set gid (GuildNoChannel (guild_name g)) (results ms)) (total_sent ms)
            (total_failed ms + count)%Z (mtrace ms)
      | Some ch =>
          let '(tr, s, f) := guild_sends gid g ch 0 (Z.to_nat count) 0 0 in
          let r := if Z.eqb s count then GuildAllSent (guild_name g) s count
                   else GuildPartial (guild_name g) s count f in
          let pause := if Qpos delay && (1 <? n_ids)%nat then [MSleep (3 # 10)] else [] in
          mkMultiState (dict_set gid r (results ms)) (total_sent ms + s)%Z
            (total_failed ms + f)%Z (mtrace ms ++ tr ++ pause)
      end
  end.

Definition multi_loop (guild_ids : list Z) : MultiState :=
  fold_left (multi_step (length guild_ids)) guild_ids (mkMultiState [] 0 0 []).

(** [multi_send(...)] once the owner check has passed; [parsed] is the
    value of [[int(id_str.strip()) for id_str in server_ids.split(',')]],
    [None] when it raises [ValueError]. *)
Definition multi_send (parsed : option (list Z)) : list MultiEvent * MultiReply :=
  if (count <? 1)%Z || (20 <? count)%Z then ([], MultiCountOutOfRange)
  else if negb (Qle_bool 0 delay) then ([], MultiNegativeDelay)
  else match parsed with
       | None => ([], MultiBadIdFormat)
       | Some guild_ids =>
           if (20 <? length guild_ids)%nat then ([], MultiTooManyServers)
           else
             let ms := multi_loop guild_ids in
             (mtrace ms, MultiResults (results ms) (total_sent ms) (total_failed ms)
                           (Qeq_bool delay 0 && (1 <? count)%Z))
       end.
End MultiSend.

(* ------------------------------------------------------------------ *)
(** ** Slash-command dispatch, [is_owner] and [on_app_command_error]

    [bot.tree] holds the commands registered with [@bot.tree.command];
    each keeps the checks stacked on it ([@is_owner()]).  An interaction
    names a command and carries the caller's id.  The command tree looks
    the name up: an unknown name raises [CommandNotFound] (with no
    [interaction.command]); a known one runs its checks first and raises
    [CheckFailure] when one returns False, and only otherwise runs the
    callback.  Both errors go to the handler installed by [@bot.tree.error].
    Everything a callback does (sends, database reads and writes) happens
    inside [DRunCallback]. *)

Inductive AppError := CheckFailure | CommandNotFound.

Inductive DispatchEvent :=
  | DRunCallback (name : string)
  | DResponse (content : string) (ephemeral : bool)
  | DLog (line : string)
  | DHandlerCrash.

Record AppCommand := mkAppCommand { cmd_name : string; cmd_checks : list (Z -> bool) }.

Definition owner_commands : list string :=
  ["sendmessage"; "sendembed"; "broadcast"; "botstats"; "multisend"; "spamchannel"].

Definition msg_owner_only : string := "‚ùå This command is restricted to the bot owner only.".
Definition msg_no_permission : string := "‚ùå You don't have permission to use this command.".
Definition msg_command_error : string := "‚ùå An error occurred while executing the command.".

Section Dispatch.
Variable OWNER_ID : Z.

(** [is_owner().predicate] *)
Definition is_owner (user_id : Z) : bool := Z.eqb user_id OWNER_ID.

(** The commands the module registers, in source order.  [bot_stats]
    carries [@is_owner()] but no [@bot.tree.command], so it is not here. *)
Definition tree_commands : list AppCommand :=
  [mkAppCommand "sendmessage" [is_owner];
   mkAppCommand "sendembed" [is_owner];
   mkAppCommand "broadcast" [is_owner];
   mkAppCommand "multisend" [is_owner];
   mkAppCommand "checkstatus" [];
   mkAppCommand "setupwebhook" [];
   mkAppCommand "removewebhook" [];
   mkAppCommand "listwebhooks" [];
   mkAppCommand "togglewebhook" []].

(** [on_app_command_error]; [command] is [interaction.command.name], or
    [None] when [interaction.command] is None (reading [.name] then
    raises), and no response has been sent before an error is raised. *)
Definition on_app_command_error (command : option string) (error : AppError) : list DispatchEvent :=
  match error with
  | CheckFailure =>
      match command with
      | None => [DHandlerCrash]
      | Some name =>
          if bool_decide (name ∈ owner_commands)
          then [DResponse msg_owner_only true]
          else [DResponse msg_no_permission true]
      end
  | CommandNotFound => [DLog "Command error: CommandNotFound"; DResponse msg_command_error true]
  end.

Definition find_command (name : string) : option AppCommand :=
  List.find (fun c => bool_decide (cmd_name c = name)) tree_commands.

Definition dispatch (user_id : Z) (name : string) : list DispatchEvent :=
  match find_command name with
  | None => on_app_command_error None CommandNotFound
  | Some c =>
      if forallb (fun check => check user_id) (cmd_checks c)
      then [DRunCallback name]
      else on_app_command_error (Some (cmd_name c)) CheckFailure
  end.
End Dispatch.

Definition is_callback (e : DispatchEvent) : bool :=
  match e with DRunCallback _ => true | _ => false end.

(* ------------------------------------------------------------------ *)
(** ** [remove_webhook] and [list_webhooks] *)

Inductive RemoveReply :=
  | RemoveNeedManageWebhooks           (* "You need 'Manage Webhooks' permission ..." *)
  | RemoveDone (svc : string)          (* "Removed auto-posting for {Service}" *)
  | RemoveNotFound (svc : string).     (* "No webhook found for {Service}" *)

(** [DELETE FROM webhooks WHERE guild_id = ? AND service = ?]; the
    boolean is [cursor.rowcount > 0]. *)
Definition sql_delete (k : Key) (st : Store) : Store * bool :=
  match st !! k with
  | Some _ => (delete k st, true)
  | None => (st, false)
  end.

(** [remove_webhook(interaction, service)]: the delete is committed only
    when a row was deleted; otherwise the connection is closed without a
    commit, which leaves the table as it was. *)
Definition remove_webhook (manage_webhooks : bool) (guild : Z) (service : string)
    (st : Store) : Store * RemoveReply :=
  if negb manage_webhooks then (st, RemoveNeedManageWebhooks) else
  let '(st', rowcount_pos) := sql_delete (guild, service) st in
  if rowcount_pos then (st', RemoveDone service) else (st, RemoveNotFound service).

Inductive ListReply :=
  | ListNone                           (* "No webhooks configured for this server." *)
  | ListEmbed (fields : list Field).   (* embed "Active Webhooks", colour 0x0099ff *)

(** [SELECT service, channel_id, ping_role_id, enabled FROM webhooks
    WHERE guild_id = ?]; row order left open as for [select_enabled]. *)
Definition select_guild (guild : Z) (st : Store) : list (Key * Row) :=
  filter (fun kr => key_guild kr.1 = guild) (map_to_list st).

Section ListWebhooks.
(** [bot.get_channel(id)] and [interaction.guild.get_role(id)], each
    given by the mention of the object found. *)
Variable get_channel : Z -> option string.
Variable get_role : Z -> option string.

(** The field added for one row. *)
Definition webhook_field (kr : Key * Row) : Field :=
  let '(k, r) := kr in
  let channel_name := default "Unknown Channel" (get_channel (channel_id r)) in
  let role_name :=
    match ping_set (ping_role_id r) with
    | Some id => default "Deleted Role" (get_role id)
    | None => "None"
    end in
  let status := if Z.eqb (enabled r) 0 then "‚ùå Disabled" else "‚úÖ Enabled" in
  mkField (capitalize (key_service k))
    ("Channel: " +:+ channel_name +:+ nl +:+ "Ping Role: " +:+ role_name +:+ nl +:+
     "Status: " +:+ status) true.

(** [list_webhooks(interaction)] in the guild [guild]. *)
Definition list_webhooks (guild : Z) (st : Store) : ListReply :=
  match select_guild guild st with
  | [] => ListNone
  | webhooks => ListEmbed (map webhook_field webhooks)
  end.
End ListWebhooks.

(* ------------------------------------------------------------------ *)
(** ** Python's [int(s, base)] and [str.strip()] on ASCII text

    CPython's [PyLong_FromString] for the two bases the module uses (10
    and 16): leading white space, an optional sign, for base 16 an
    optional [0x]/[0X] prefix followed by at most one underscore, then
    digits with single underscores between them, then trailing white
    space only.  Base 10 also refuses more than 4300 digits (the default
    [sys.get_int_max_str_digits()]).  The text is ASCII; white space is
    what [str.isspace] accepts there (9-13, 28-31 and 32). *)

Definition py_isspace (c : Ascii.ascii) : bool :=
  let n := Ascii.nat_of_ascii c in
  (n =? 32) || ((9 <=? n) && (n <=? 13)) || ((28 <=? n) && (n <=? 31)).

(** [_PyLong_DigitValue]: 0-9, a-z and A-Z as 10-35, anything else 37. *)
Definition digit_value (c : Ascii.ascii) : nat :=
  let n := Ascii.nat_of_ascii c in
  if (48 <=? n) && (n <=? 57) then n - 48
  else if (97 <=? n) && (n <=? 122) then n - 87
  else if (65 <=? n) && (n <=? 90) then n - 55
  else 37.

Definition is_underscore (c : Ascii.ascii) : bool := Ascii.nat_of_ascii c =? 95.

Fixpoint lstrip (s : string) : string :=
  match s with
  | EmptyString => EmptyString
  | String c s' => if py_isspace c then lstrip s' else s
  end.

Fixpoint rstrip (s : string) : string :=
  match s with
  | EmptyString => EmptyString
  | String c s' =>
      let r := rstrip s' in
      if py_isspace c && String.eqb r "" then EmptyString else String c r
  end.

(** [str.strip()] *)
Definition py_strip (s : string) : string := rstrip (lstrip s).

Fixpoint all_space (s : string) : bool :=
  match s with
  | EmptyString => true
  | String c s' => py_isspace c && all_space s'
  end.

(** The run of digits and underscores the scanner consumes, and the rest. *)
Fixpoint span_digits (base : nat) (s : string) : string * string :=
  match s with
  | EmptyString => (EmptyString, EmptyString)
  | String c s' =>
      if (digit_value c <? base) || is_underscore c then
        let '(d, r) := span_digits base s' in (String c d, r)
      else (EmptyString, s)
  end.

(** No two underscores in a row and none at the end. *)
Fixpoint underscores_ok (prev : bool) (d : string) : bool :=
  match d with
  | EmptyString => negb prev
  | String c d' => if is_underscore c then negb prev && underscores_ok true d'
                   else underscores_ok false d'
  end.

Fixpoint n_digits (d : string) : nat :=
  match d with
  | EmptyString => 0
  | String c d' => if is_underscore c then n_digits d' else S (n_digits d')
  end.

Fixpoint digits_value (base : Z) (acc : Z) (d : string) : Z :=
  match d with
  | EmptyString => acc
  | String c d' =>
      if is_underscore c then digits_value base acc d'
      else digits_value base (acc * base + Z.of_nat (digit_value c))%Z d'
  end.

Definition strip_sign (s : string) : Z * string :=
  match s with
  | String c s' =>
      if Ascii.nat_of_ascii c =? 43 then (1%Z, s')
      else if Ascii.nat_of_ascii c =? 45 then ((-1)%Z, s')
      else (1%Z, s)
  | EmptyString => (1%Z, s)
  end.

(** [0x]/[0X] and one optional underscore, base 16 only. *)
Definition strip_base_prefix (base : nat) (s : string) : string :=
  match s with
  | String c0 (String c1 rest) =>
      if (base =? 16) && (Ascii.nat_of_ascii c0 =? 48) &&
         ((Ascii.nat_of_ascii c1 =? 120) || (Ascii.nat_of_ascii c1 =? 88))
      then match rest with
           | String u rest' => if is_underscore u then rest' else rest
           | EmptyString => rest
           end
      else s
  | _ => s
  end.

Definition starts_with_underscore (s : string) : bool :=
  match s with String c _ => is_underscore c | EmptyString => false end.

(** [int(s, base)]; [None] is [ValueError]. *)
Definition py_int (base : nat) (s : string) : option Z :=
  let '(sign, s1) := strip_sign (lstrip s) in
  let s2 := strip_base_prefix base s1 in
  if starts_with_underscore s2 then None else
  let '(d, rest) := span_digits base s2 in
  if (n_digits d =? 0) || negb (underscores_ok false d) || negb (all_space rest) then None
  else if (base =? 10) && (4300 <? n_digits d) then None
  else Some (sign * digits_value (Z.of_nat base) 0 d)%Z.

(* ------------------------------------------------------------------ *)
(** ** Owner-only bulk sending: [send_embed] *)

(** [color[1:]] *)
Definition drop1 (s : string) : string :=
  match s with String _ s' => s' | EmptyString => EmptyString end.

(** The colour parsing at the head of [send_embed]'s [try]; [None] is the
    [ValueError] of [int(..., 16)]. *)
Definition parse_color (color : option string) : option Z :=
  match color with
  | None => Some 0x0099ff%Z
  | Some c =>
      if String.eqb c "" then Some 0x0099ff%Z
      else if String.prefix "0x" c then py_int 16 c
      else if String.prefix "#" c then py_int 16 (drop1 c)
      else py_int 16 c
  end.

Inductive EmbedEvent :=
  | ESend (i : nat) (title description : string) (color : Z) (footer : string)
  | ESleep (seconds : Q).

Inductive EmbedReply :=
  | EmbedCountOutOfRange          (* "Count must be between 1 and 50." *)
  | EmbedNegativeDelay            (* "Delay cannot be negative." *)
  | EmbedInvalidColor             (* "Invalid color format. Use hex format ..." *)
  | EmbedSent (sent count failed : Z) (ultra_fast : bool).

Section SendEmbed.
(** [esend i]: what the channel does with the [i]-th embed. *)
Variable esend : nat -> SendOutcome.
Variable title description : string.

(** [f"Sent via Status Bot {f'({i+1}/{count})' if count > 1 else ''}"] *)
Definition embed_footer_text (count : Z) (i : nat) : string :=
  "Sent via Status Bot " +:+
  (if (1 <? count)%Z then "(" +:+ pretty (S i) +:+ "/" +:+ pretty count +:+ ")" else "").

Fixpoint embed_loop (embed_color : Z) (count : Z) (delay : Q) (i n : nat)
    (sent_count failed_count : Z) : list EmbedEvent * Z * Z :=
  match n with
  | O => ([], sent_count, failed_count)
  | S n' =>
      let ev := ESend i title description embed_color (embed_footer_text count i) in
      match esend i with
      | SendOk =>
          let pause := if Qpos delay && (Z.of_nat i <? count - 1)%Z then [ESleep delay] else [] in
          let '(tr, s, f) := embed_loop embed_color count delay (S i) n' (sent_count + 1)%Z failed_count in
          (ev :: pause ++ tr, s, f)
      | SendForbidden => ([ev], sent_count, (failed_count + 1)%Z)
      | SendHTTPError status =>
          let pause := if Z.eqb status 429 then [ESleep 1%Q] else [] in
          let '(tr, s, f) := embed_loop embed_color count delay (S i) n' sent_count (failed_count + 1)%Z in
          (ev :: pause ++ tr, s, f)
      | SendOtherError =>
          let '(tr, s, f) := embed_loop embed_color count delay (S i) n' sent_count (failed_count + 1)%Z in
          (ev :: tr, s, f)
      end
  end.

(** [send_embed(interaction, channel, title, description, color, count, delay)]
    once the owner check has passed. *)
Definition send_embed (color : option string) (count : Z) (delay : Q) : list EmbedEvent * EmbedReply :=
  if (count <? 1)%Z || (50 <? count)%Z then ([], EmbedCountOutOfRange)
  else if negb (Qle_bool 0 delay) then ([], EmbedNegativeDelay)
  else match parse_color color with
       | None => ([], EmbedInvalidColor)
       | Some embed_color =>
           let '(tr, sent_count, failed_count) :=
             embed_loop embed_color count delay 0 (Z.to_nat count) 0 0 in
           (tr, EmbedSent sent_count count failed_count (Qeq_bool delay 0 && (1 <? count)%Z))
       end.
End SendEmbed.

(* ------------------------------------------------------------------ *)
(** ** Owner-only bulk sending: [broadcast] *)

Inductive BroadcastPayload :=
  | BcPlain (message : string)
  | BcEmbed (description footer : string).

Inductive BroadcastEvent :=
  | BSend (guild_id channel : Z) (i : nat) (p : BroadcastPayload)
  | BSleep (seconds : Q).

Inductive BroadcastReply :=
  | BroadcastCountOutOfRange      (* "Count must be between 1 and 10 for broadcasts." *)
  | BroadcastNegativeDelay
  | BroadcastDone (servers_reached n_guilds total_sent total_failed : Z) (ultra_fast : bool).

Record BroadcastState := mkBroadcastState {
  bc_sent : Z;
  bc_failed : Z;
  bc_reached : Z;
  bc_trace : list BroadcastEvent
}.

Section Broadcast.
(** The outcome of the [i]-th send to a channel of a guild. *)
Variable bsend : Z -> Z -> nat -> SendOutcome.
Variable message : string.
Variable embed_format : bool.
Variable count : Z.
Variable delay : Q.

Definition broadcast_payload (i : nat) : BroadcastPayload :=
  if embed_format then
    BcEmbed message
      ("Status Bot Broadcast " +:+
       (if (1 <? count)%Z then "(" +:+ pretty (S i) +:+ "/" +:+ pretty count +:+ ")" else ""))
  else BcPlain message.

(** [for i in range(count):] for one guild; a [discord.Forbidden] is a
    [discord.HTTPException] (status 403) and does not stop the loop. *)
Fixpoint broadcast_sends (gid : Z) (ch : Channel) (i n : nat) (sent failed : Z)
    : list BroadcastEvent * Z * Z :=
  match n with
  | O => ([], sent, failed)
  | S n' =>
      let ev := BSend gid (chan_id ch) i (broadcast_payload i) in
      match bsend gid (chan_id ch) i with
      | SendOk =>
          let pause := if Qpos delay && (Z.of_nat i <? count - 1)%Z then [BSleep delay] else [] in
          let '(tr, s, f) := broadcast_sends gid ch (S i) n' (sent + 1)%Z failed in
          (ev :: pause ++ tr, s, f)
      | SendForbidden =>
          let '(tr, s, f) := broadcast_sends gid ch (S i) n' sent (failed + 1)%Z in
          (ev :: tr, s, f)
      | SendHTTPError status =>
          let pause := if Z.eqb status 429 then [BSleep 2%Q] else [] in
          let '(tr, s, f) := broadcast_sends gid ch (S i) n' sent (failed + 1)%Z in
          (ev :: pause ++ tr, s, f)
      | SendOtherError =>
          let '(tr, s, f) := broadcast_sends gid ch (S i) n' sent (failed + 1)%Z in
          (ev :: tr, s, f)
      end
  end.

(** One iteration of [for guild in bot.guilds:]. *)
Definition broadcast_step (bs : BroadcastState) (gg : Z * Guild) : BroadcastState :=
  let '(gid, g) := gg in
  match pick_channel g with
  | None => mkBroadcastState (bc_sent bs) (bc_failed bs + count)%Z (bc_reached bs) (bc_trace bs)
  | Some ch =>
      let '(tr, s, f) := broadcast_sends gid ch 0 (Z.to_nat count) 0 0 in
      mkBroadcastState (bc_sent bs + s)%Z (bc_failed bs + f)%Z
        (bc_reached bs + (if (0 <? s)%Z then 1 else 0))%Z
        (bc_trace bs ++ tr ++ (if Qpos delay then [BSleep (1 # 2)] else []))
  end.

(** [broadcast(interaction, message, embed_format, count, delay)] once
    the owner check has passed; [guilds] is [bot.guilds] with their ids. *)
Definition broadcast (guilds : list (Z * Guild)) : list BroadcastEvent * BroadcastReply :=
  if (count <? 1)%Z || (10 <? count)%Z then ([], BroadcastCountOutOfRange)
  else if negb (Qle_bool 0 delay) then ([], BroadcastNegativeDelay)
  else
    let bs := fold_left broadcast_step guilds (mkBroadcastState 0 0 0 []) in
    (bc_trace bs, BroadcastDone (bc_reached bs) (Z.of_nat (length guilds)) (bc_sent bs) (bc_failed bs)
                    (Qeq_bool delay 0 && (1 <? count)%Z)).
End Broadcast.

(* ------------------------------------------------------------------ *)
(** ** [multi_send]: parsing [server_ids] and splitting the report *)

(** [s.split(',')] *)
Fixpoint py_split_comma (s : string) : list string :=
  match s with
  | EmptyString => [EmptyString]
  | String c s' =>
      let rest := py_split_comma s' in
      if Ascii.nat_of_ascii c =? 44 then EmptyString :: rest
      else match rest with
           | r :: rs => String c r :: rs
           | [] => [String c EmptyString]
           end
  end.

(** [[int(id_str.strip()) for id_str in server_ids.split(',')]];
    [None] is the [ValueError]. *)
Definition parse_server_ids (server_ids : string) : option (list Z) :=
  mapM (fun id_str => py_int 10 (py_strip id_str)) (py_split_comma server_ids).

(** [[result_msg[i:i+n] for i in range(0, len(result_msg), n)]], on the
    code points of the text. *)
Definition py_chunks {A} (n : nat) (l : list A) : list (list A) :=
  map (fun i => take n (drop i l)) (map (fun k => k * n) (seq 0 ((length l + n - 1) / n))).

(** The follow-up messages that carry the report. *)
Definition followup_parts {A} (result_msg : list A) : list (list A) :=
  if 2000 <? length result_msg then py_chunks 1900 result_msg else [result_msg].

(* ================================================================== *)
(** * Properties *)

(* ------------------------------------------------------------------ *)
(** ** Locality of one tick *)

Lemma events_of_other (k k' : Key) (tr : list Event) :
  Forall (fun e => event_key e = k') tr -> k' <> k -> events_of k tr = [].
Proof.
  intros Hall Hne. unfold events_of.
  induction Hall as [|e tr He _ IH]; [done|].
  rewrite filter_cons_False; [done|]. congruence.
Qed.

Lemma events_of_same (k : Key) (tr : list Event) :
  Forall (fun e => event_key e = k) tr -> events_of k tr = tr.
Proof.
  intros Hall. unfold events_of.
  induction Hall as [|e tr He _ IH]; [done|].
  rewrite filter_cons_True; [|done]. by rewrite IH.
Qed.

Section PollerFacts.
Variable fetch : string -> option Snapshot.
Variable post : Key -> string -> Payload -> PostOutcome.

Local Abbreviation process := (process_config fetch post).
Local Abbreviation run := (run_configs fetch post).

(** Processing a row only touches that row and only emits events about it. *)
Lemma process_config_frame (kr : Key * Row) (st : Store) :
  let '(st', tr, _) := process kr st in
  Forall (fun e => event_key e = kr.1) tr /\
  (forall k, k <> kr.1 -> st' !! k = st !! k).
Proof.
  destruct kr as [k r]; unfold process_config; simpl.
  destruct (fetch (key_service k)) as [data|];
    [|split; [repeat constructor|done]].
  destruct (snap_incidents data) as [|latest ?];
    [split; [repeat constructor|done]|].
  case_decide; [split; [repeat constructor|done]|].
  destruct (create_status_embed _ _); [|split; [repeat constructor|done]].
  destruct (post _ _ _) as [code|]; [|split; [repeat constructor|done]].
  destruct (Z.eqb code 204); (split; [repeat constructor|]); try done.
  intros k' Hk'. unfold sql_update_last_incident. by rewrite lookup_alter_ne.
Qed.

(** What processing a row does to that row depends on the store only
    through the row's own entry. *)
Lemma process_config_local (k : Key) (r : Row) (st1 st2 : Store) :
  st1 !! k = st2 !! k ->
  let '(a1, t1, c1) := process (k, r) st1 in
  let '(a2, t2, c2) := process (k, r) st2 in
  t1 = t2 /\ c1 = c2 /\ a1 !! k = a2 !! k.
Proof.
  intros Heq. unfold process_config.
  destruct (fetch (key_service k)) as [data|]; [|done].
  destruct (snap_incidents data) as [|latest ?]; [done|].
  case_decide; [done|].
  destruct (create_status_embed _ _); [|done].
  destruct (post _ _ _) as [code|]; [|done].
  destruct (Z.eqb code 204); [|done].
  unfold sql_update_last_incident. rewrite !lookup_alter. by rewrite Heq.
Qed.

Lemma run_configs_app (l1 l2 : list (Key * Row)) (st : Store) :
  run (l1 ++ l2) st =
    let '(s1, t1, c1) := run l1 st in
    if c1 then (s1, t1, true)
    else let '(s2, t2, c2) := run l2 s1 in (s2, t1 ++ t2, c2).
Proof.
  revert st; induction l1 as [|kr l1 IH]; intros st; simpl.
  - by destruct (run l2 st) as [[??]?].
  - destruct (process kr st) as [[s1 t1] c1]. destruct c1; [done|].
    rewrite IH. destruct (run l1 s1) as [[s2 t2] c2]. destruct c2; [done|].
    destruct (run l2 s2) as [[s3 t3] c3]. by rewrite app_assoc.
Qed.

(** Rows that are not processed are left alone. *)
Lemma run_configs_absent (cfgs : list (Key * Row)) (st : Store) (k : Key) :
  k ∉ cfgs.*1 ->
  let '(st', tr, _) := run cfgs st in
  st' !! k = st !! k /\ events_of k tr = [].
Proof.
  revert st; induction cfgs as [|[k0 r0] cfgs IH]; intros st Hk; cbn [run_configs]; [done|].
  rewrite fmap_cons, elem_of_cons in Hk. simpl in Hk.
  pose proof (process_config_frame (k0, r0) st) as Hf.
  destruct (process (k0, r0) st) as [[s1 t1] c1]. destruct Hf as [Hev Hst].
  simpl in Hev, Hst.
  assert (k0 <> k) as Hne by (intros ->; apply Hk; by left).
  assert (events_of k t1 = []) as Ht1 by (by apply (events_of_other _ k0)).
  destruct c1.
  - split; [apply Hst; congruence|done].
  - specialize (IH s1 ltac:(intros ?; apply Hk; by right)).
    destruct (run cfgs s1) as [[s2 t2] c2]. destruct IH as [IH1 IH2].
    split.
    + rewrite IH1. apply Hst. congruence.
    + unfold events_of in *. by rewrite filter_app, Ht1, IH2.
Qed.

(** Within one run, a listed row is either never reached (the run
    stopped earlier on an exception) or processed exactly once, with
    the effect [process_config] has on the store it started from. *)
Lemma run_configs_local (cfgs : list (Key * Row)) (st : Store) (k : Key) (r : Row) :
  NoDup cfgs.*1 -> (k, r) ∈ cfgs -> st !! k = Some r ->
  let '(st', tr, _) := run cfgs st in
  let '(stk, trk, _) := process (k, r) st in
  (st' !! k = Some r /\ events_of k tr = []) \/
  (st' !! k = stk !! k /\ events_of k tr = trk).
Proof.
  intros Hnd Hin Hst.
  apply list_elem_of_split in Hin as (pre & suf & ->).
  rewrite fmap_app, fmap_cons in Hnd. simpl in Hnd.
  apply NoDup_app in Hnd as (_ & Hdisj & Hnd2).
  apply NoDup_cons in Hnd2 as [Hsuf _].
  assert (k ∉ pre.*1) as Hpre by (intros Hk; by apply (Hdisj k Hk), elem_of_cons; left).
  rewrite run_configs_app.
  pose proof (run_configs_absent pre st k Hpre) as Hp.
  destruct (run pre st) as [[s1 t1] c1]. destruct Hp as [Hs1 Ht1].
  pose proof (process_config_local k r s1 st Hs1) as Hloc.
  pose proof (process_config_frame (k, r) st) as Hfr.
  destruct (process (k, r) st) as [[stk trk] ck] eqn:Ek.
  destruct Hfr as [Hev _]. simpl in Hev.
  destruct c1; [left; split; [congruence|done]|].
  cbn [run_configs].
  destruct (process (k, r) s1) as [[a1 ta] ca].
  destruct Hloc as (-> & -> & Ha1).
  destruct ck.
  - right. split; [done|]. unfold events_of in *.
    rewrite filter_app, Ht1. simpl. by apply events_of_same.
  - pose proof (run_configs_absent suf a1 k Hsuf) as Hq.
    destruct (run suf a1) as [[s3 t3] c3]. destruct Hq as [Hs3 Ht3].
    right. split; [congruence|]. unfold events_of in *.
    rewrite !filter_app, Ht1, Ht3. simpl. rewrite app_nil_r.
    by apply events_of_same.
Qed.
End PollerFacts.

Lemma select_enabled_NoDup (st : Store) : NoDup (select_enabled st).*1.
Proof.
  unfold select_enabled.
  apply (sublist_NoDup _ (map_to_list st).*1); [apply NoDup_fst_map_to_list|].
  apply fmap_sublist, sublist_filter.
Qed.

Lemma elem_of_select_enabled (st : Store) (k : Key) (r : Row) :
  (k, r) ∈ select_enabled st <-> st !! k = Some r /\ enabled r = 1%Z.
Proof.
  unfold select_enabled. rewrite list_elem_of_filter, elem_of_map_to_list. simpl. tauto.
Qed.

Lemma select_enabled_keys (st : Store) (k : Key) :
  k ∈ (select_enabled st).*1 <-> exists r, st !! k = Some r /\ enabled r = 1%Z.
Proof.
  rewrite list_elem_of_fmap. split.
  - intros ([k' r] & -> & Hin). apply elem_of_select_enabled in Hin. by exists r.
  - intros (r & Hr). exists (k, r). split; [done|]. by apply elem_of_select_enabled.
Qed.

(* ------------------------------------------------------------------ *)
(** ** What one tick does to one row *)

Definition n_accepted (tr : list Event) : nat :=
  length (filter (fun e => is_accepted_post e = true) tr).

Definition n_updates (tr : list Event) : nat :=
  length (filter (fun e => is_update e = true) tr).

Lemma n_accepted_app (t1 t2 : list Event) : n_accepted (t1 ++ t2) = n_accepted t1 + n_accepted t2.
Proof. unfold n_accepted. by rewrite filter_app, length_app. Qed.

Lemma accepted_posts_app (k : Key) (t1 t2 : list Event) :
  accepted_posts k (t1 ++ t2) = accepted_posts k t1 + accepted_posts k t2.
Proof. unfold accepted_posts, events_of. rewrite filter_app. apply n_accepted_app. Qed.

Section TickFacts.
Variable fetch : string -> option Snapshot.
Variable post : Key -> string -> Payload -> PostOutcome.

Local Abbreviation process := (process_config fetch post).
Local Abbreviation tick := (check_and_post_incidents fetch post).

(** The effect of processing a present row: nothing, or one accepted
    delivery followed by one marker update to the newest incident id. *)
Lemma process_config_row (st : Store) (k : Key) (r : Row) :
  st !! k = Some r ->
  let '(stk, trk, _) := process (k, r) st in
  (n_accepted trk = 0 /\ n_updates trk = 0 /\ stk !! k = Some r) \/
  (n_accepted trk = 1 /\ n_updates trk = 1 /\
   exists data latest older,
     fetch (key_service k) = Some data /\ snap_incidents data = latest :: older /\
     inc_id latest <> last_incident_id r /\
     stk !! k = Some (set_last_incident r (inc_id latest))).
Proof.
  intros Hr. unfold process_config.
  destruct (fetch (key_service k)) as [data|] eqn:Ef; [|by left].
  destruct (snap_incidents data) as [|latest older] eqn:Ei; [by left|].
  case_decide as Hd; [by left|].
  destruct (create_status_embed _ _); [|by left].
  destruct (post _ _ _) as [code|] eqn:Ep; [|by left].
  destruct (Z.eqb code 204) eqn:Ec.
  - right. unfold n_accepted, n_updates. cbn. rewrite Ec. cbn.
    split; [done|]. split; [done|].
    exists data, latest, older. repeat split; try done.
    unfold sql_update_last_incident. by rewrite lookup_alter_eq, Hr.
  - left. unfold n_accepted, n_updates. cbn. rewrite Ec. cbn. done.
Qed.

(** The effect of one tick on a row with key [k]. *)
Lemma tick_row (st : Store) (k : Key) (r : Row) :
  st !! k = Some r ->
  let '(st', tr, _) := tick st in
  (accepted_posts k tr = 0 /\ marker_updates k tr = 0 /\ st' !! k = Some r) \/
  (accepted_posts k tr = 1 /\ marker_updates k tr = 1 /\ enabled r = 1%Z /\
   exists data latest older,
     fetch (key_service k) = Some data /\ snap_incidents data = latest :: older /\
     inc_id latest <> last_incident_id r /\
     st' !! k = Some (set_last_incident r (inc_id latest))).
Proof.
  intros Hr. unfold check_and_post_incidents.
  destruct (decide (enabled r = 1%Z)) as [He|He].
  - assert ((k, r) ∈ select_enabled st) as Hin by (by apply elem_of_select_enabled).
    pose proof (run_configs_local fetch post _ st k r (select_enabled_NoDup st) Hin Hr) as Hl.
    pose proof (process_config_row st k r Hr) as Hp.
    destruct (run_configs _ _ _ st) as [[st' tr] c].
    destruct (process (k, r) st) as [[stk trk] ck].
    unfold accepted_posts, marker_updates.
    destruct Hl as [[Hs Ht] | [Hs Ht]]; rewrite Ht.
    + left. by split.
    + rewrite Hs. destruct Hp as [(H1 & H2 & H3) | (H1 & H2 & H3)].
      * by left.
      * right. by repeat split.
  - assert (k ∉ (select_enabled st).*1) as Hn.
    { rewrite select_enabled_keys. intros (r' & Hr' & He'). congruence. }
    pose proof (run_configs_absent fetch post _ st k Hn) as Ha.
    destruct (run_configs _ _ _ st) as [[st' tr] c]. destruct Ha as [Hs Ht].
    left. unfold accepted_posts, marker_updates. rewrite Ht. by rewrite Hs.
Qed.

(** A key with no row gets no row and no event. *)
Lemma tick_no_row (st : Store) (k : Key) :
  st !! k = None ->
  let '(st', tr, _) := tick st in st' !! k = None /\ events_of k tr = [].
Proof.
  intros Hk. unfold check_and_post_incidents.
  assert (k ∉ (select_enabled st).*1) as Hn.
  { rewrite select_enabled_keys. intros (r' & Hr' & _). congruence. }
  pose proof (run_configs_absent fetch post _ st k Hn) as Ha.
  destruct (run_configs _ _ _ st) as [[st' tr] c]. destruct Ha as [Hs Ht].
  by rewrite Hs.
Qed.
End TickFacts.

(* ------------------------------------------------------------------ *)
(** ** Poller claims *)

(** C1: for an enabled row whose newest fetched incident id differs from
    its stored [last_incident_id], one tick updates the marker to the
    newest id exactly once when the webhook POST is answered 204, and
    leaves the row unchanged on any other outcome (another status, a
    network error, or the row not reached), so the marker still differs
    and the incident is retried on the next tick. *)
Theorem tick_marker_advances_only_on_accepted_delivery
    (fetch : string -> option Snapshot) (post : Key -> string -> Payload -> PostOutcome)
    (st : Store) (k : Key) (r : Row) (data : Snapshot) (latest : Incident)
    (older : list Incident) :
  st !! k = Some r -> enabled r = 1%Z ->
  fetch (key_service k) = Some data -> snap_incidents data = latest :: older ->
  inc_id latest <> last_incident_id r ->
  let '(st', tr, _) := check_and_post_incidents fetch post st in
  accepted_posts k tr <= 1 /\
  marker_updates k tr = accepted_posts k tr /\
  st' !! k = Some (if decide (accepted_posts k tr = 1)
                   then set_last_incident r (inc_id latest) else r).
Proof.
  intros Hr He Hf Hi Hne.
  pose proof (tick_row fetch post st k r Hr) as Ht.
  destruct (check_and_post_incidents fetch post st) as [[st' tr] c].
  destruct Ht as [(H1 & H2 & H3) | (H1 & H2 & _ & data' & latest' & older' & Hf' & Hi' & _ & H3)].
  - rewrite H1, H2, H3, decide_False by lia. split; [lia|done].
  - rewrite Hf in Hf'. injection Hf' as <-. rewrite Hi in Hi'. injection Hi' as <- <-.
    rewrite H1, H2, H3, decide_True by done. split; [lia|done].
Qed.

Definition inc_41_42_row : Row := mkRow 11 "https://discord.com/api/webhooks/1/x" (Some 5%Z) 1 (Some "inc-41").
Definition inc_42 : Incident :=
  mkIncident (Some "inc-42") (Some "Elevated errors") (Some "investigating")
    (Some [Some "We are investigating."]).
Definition inc_41_42_snapshot : Snapshot :=
  mkSnapshot (mkStatusObj "Minor Service Outage" "minor") [inc_42]
    [mkComponent (Some "API") (Some "degraded_performance")].
Definition inc_41_42_store : Store := <[(7%Z, "vercel") := inc_41_42_row]> ∅.

(** The scenario of the spec: stored ["inc-41"], newest ["inc-42"],
    delivery answered 204; the marker becomes ["inc-42"]. *)
Lemma tick_marker_advances_only_on_accepted_delivery_witness :
  (inc_41_42_store !! (7%Z, "vercel") = Some inc_41_42_row /\ enabled inc_41_42_row = 1%Z /\
   (fun _ : string => Some inc_41_42_snapshot) (key_service (7%Z, "vercel")) = Some inc_41_42_snapshot /\
   snap_incidents inc_41_42_snapshot = inc_42 :: [] /\
   inc_id inc_42 <> last_incident_id inc_41_42_row) /\
  (let '(st', tr, _) := check_and_post_incidents (fun _ => Some inc_41_42_snapshot)
                           (fun _ _ _ => PostStatus 204) inc_41_42_store in
   accepted_posts (7%Z, "vercel") tr <= 1 /\
   marker_updates (7%Z, "vercel") tr = accepted_posts (7%Z, "vercel") tr /\
   st' !! (7%Z, "vercel") = Some (if decide (accepted_posts (7%Z, "vercel") tr = 1)
                    then set_last_incident inc_41_42_row (inc_id inc_42) else inc_41_42_row)).
Proof.
  split.
  - repeat split; try reflexivity. cbv. discriminate.
  - apply (tick_marker_advances_only_on_accepted_delivery
             (fun _ => Some inc_41_42_snapshot) (fun _ _ _ => PostStatus 204)
             inc_41_42_store (7%Z, "vercel") inc_41_42_row inc_41_42_snapshot inc_42 []);
      try reflexivity. cbv. discriminate.
Defined.

(** The same scenario with every delivery outcome evaluated. *)
Example inc_41_42_accepted :
  let '(st', _, _) := check_and_post_incidents (fun _ => Some inc_41_42_snapshot)
                        (fun _ _ _ => PostStatus 204) inc_41_42_store in
  option_map last_incident_id (st' !! (7%Z, "vercel")) = Some (Some "inc-42").
Proof. vm_compute. reflexivity. Qed.

Example inc_41_42_rejected :
  let '(st', _, _) := check_and_post_incidents (fun _ => Some inc_41_42_snapshot)
                        (fun _ _ _ => PostStatus 429) inc_41_42_store in
  option_map last_incident_id (st' !! (7%Z, "vercel")) = Some (Some "inc-41").
Proof. vm_compute. reflexivity. Qed.

Lemma accepted_posts_tick_le_1 (fetch : string -> option Snapshot)
    (post : Key -> string -> Payload -> PostOutcome) (st : Store) (k : Key) :
  let '(_, tr, _) := check_and_post_incidents fetch post st in accepted_posts k tr <= 1.
Proof.
  destruct (st !! k) as [r|] eqn:Hr.
  - pose proof (tick_row fetch post st k r Hr) as Ht.
    destruct (check_and_post_incidents fetch post st) as [[st' tr] c].
    destruct Ht as [(H1 & _) | (H1 & _)]; lia.
  - pose proof (tick_no_row fetch post st k Hr) as Ht.
    destruct (check_and_post_incidents fetch post st) as [[st' tr] c].
    destruct Ht as [_ Ht]. unfold accepted_posts. rewrite Ht. simpl. lia.
Qed.

(** An enabled row whose stored marker equals the newest incident id is
    fetched for and nothing else. *)
Lemma tick_unchanged_incident (fetch : string -> option Snapshot)
    (post : Key -> string -> Payload -> PostOutcome)
    (st : Store) (k : Key) (r : Row) (data : Snapshot) (latest : Incident)
    (older : list Incident) :
  st !! k = Some r -> enabled r = 1%Z ->
  fetch (key_service k) = Some data -> snap_incidents data = latest :: older ->
  inc_id latest = last_incident_id r ->
  let '(st', tr, _) := check_and_post_incidents fetch post st in
  filter (fun e => is_post e = true) (events_of k tr) = [] /\ st' !! k = Some r.
Proof.
  intros Hr He Hf Hi Heq. unfold check_and_post_incidents.
  assert ((k, r) ∈ select_enabled st) as Hin by (by apply elem_of_select_enabled).
  pose proof (run_configs_local fetch post _ st k r (select_enabled_NoDup st) Hin Hr) as Hl.
  destruct (run_configs _ _ _ st) as [[st' tr] c].
  unfold process_config in Hl. rewrite Hf, Hi in Hl. rewrite decide_True in Hl by done.
  destruct Hl as [[Hs Ht] | [Hs Ht]]; rewrite Ht; split; try done; congruence.
Qed.

(** C2: if the newest incident id of an enabled row equals its stored
    [last_incident_id], the tick posts nothing for it and leaves the row
    unchanged; and over two consecutive ticks with the same fetched
    snapshots (whatever the webhook answers), a row gets at most one
    accepted delivery. *)
Theorem tick_idempotent_on_same_incident (fetch : string -> option Snapshot) :
  (forall (post : Key -> string -> Payload -> PostOutcome) (st : Store) (k : Key) (r : Row)
          (data : Snapshot) (latest : Incident) (older : list Incident),
     st !! k = Some r -> enabled r = 1%Z ->
     fetch (key_service k) = Some data -> snap_incidents data = latest :: older ->
     inc_id latest = last_incident_id r ->
     let '(st', tr, _) := check_and_post_incidents fetch post st in
     filter (fun e => is_post e = true) (events_of k tr) = [] /\ st' !! k = Some r) /\
  (forall (post1 post2 : Key -> string -> Payload -> PostOutcome) (st : Store) (k : Key),
     let '(st1, tr1, _) := check_and_post_incidents fetch post1 st in
     let '(_, tr2, _) := check_and_post_incidents fetch post2 st1 in
     accepted_posts k (tr1 ++ tr2) <= 1).
Proof.
  split; [apply tick_unchanged_incident|].
  intros post1 post2 st k.
  destruct (st !! k) as [r|] eqn:Hr.
  - pose proof (tick_row fetch post1 st k r Hr) as Ht.
    destruct (check_and_post_incidents fetch post1 st) as [[st1 tr1] c1].
    pose proof (accepted_posts_tick_le_1 fetch post2 st1 k) as Hle.
    destruct Ht as [(H1 & _ & H3) | (H1 & _ & He & data & latest & older & Hf & Hi & _ & H3)].
    + destruct (check_and_post_incidents fetch post2 st1) as [[st2 tr2] c2].
      rewrite accepted_posts_app. lia.
    + pose proof (tick_unchanged_incident fetch post2 st1 k _ data latest older H3 He Hf Hi
                    eq_refl) as Hu.
      destruct (check_and_post_incidents fetch post2 st1) as [[st2 tr2] c2].
      destruct Hu as [Hnp _].
      rewrite accepted_posts_app, H1.
      assert (accepted_posts k tr2 = 0) as ->; [|lia].
      unfold accepted_posts, n_accepted.
      enough (filter (fun e => is_accepted_post e = true) (events_of k tr2) = []) as -> by done.
      (* an accepted post is a post *)
      assert (filter (fun e => is_accepted_post e = true) (events_of k tr2)
              ⊆ filter (fun e => is_post e = true) (events_of k tr2)) as Hsub.
      { intros e. rewrite !list_elem_of_filter. intros [Ha Hin]. split; [|done].
        destruct e; simpl in *; congruence. }
      rewrite Hnp in Hsub.
      destruct (filter (fun e => is_accepted_post e = true) (events_of k tr2)) as [|e l];
        [reflexivity|].
      exfalso. apply (not_elem_of_nil e), Hsub. by left.
  - pose proof (tick_no_row fetch post1 st k Hr) as Ht.
    destruct (check_and_post_incidents fetch post1 st) as [[st1 tr1] c1].
    destruct Ht as [Hs1 Ht1].
    pose proof (tick_no_row fetch post2 st1 k Hs1) as Ht'.
    destruct (check_and_post_incidents fetch post2 st1) as [[st2 tr2] c2].
    destruct Ht' as [_ Ht2].
    unfold accepted_posts, events_of in *. rewrite filter_app, Ht1, Ht2. simpl. lia.
Qed.

(** C3: a tick does nothing for a row that is not enabled: no status
    fetch, no POST, no update for its key, and the row is kept as it was. *)
Theorem tick_skips_disabled (fetch : string -> option Snapshot)
    (post : Key -> string -> Payload -> PostOutcome) (st : Store) (k : Key) (r : Row) :
  st !! k = Some r -> enabled r <> 1%Z ->
  let '(st', tr, _) := check_and_post_incidents fetch post st in
  events_of k tr = [] /\ st' !! k = Some r.
Proof.
  intros Hr He. unfold check_and_post_incidents.
  assert (k ∉ (select_enabled st).*1) as Hn.
  { rewrite select_enabled_keys. intros (r' & Hr' & He'). congruence. }
  pose proof (run_configs_absent fetch post _ st k Hn) as Ha.
  destruct (run_configs _ _ _ st) as [[st' tr] c]. destruct Ha as [Hs Ht].
  by rewrite Hs.
Qed.

Definition disabled_row : Row := set_enabled inc_41_42_row 0.

Lemma tick_skips_disabled_witness :
  (<[(7%Z, "vercel") := disabled_row]> inc_41_42_store !! (7%Z, "vercel") = Some disabled_row /\
   enabled disabled_row <> 1%Z) /\
  (let '(st', tr, _) := check_and_post_incidents (fun _ => Some inc_41_42_snapshot)
                          (fun _ _ _ => PostStatus 204)
                          (<[(7%Z, "vercel") := disabled_row]> inc_41_42_store) in
   events_of (7%Z, "vercel") tr = [] /\ st' !! (7%Z, "vercel") = Some disabled_row).
Proof.
  split.
  - split; [reflexivity|]. cbv. discriminate.
  - apply tick_skips_disabled; [reflexivity|]. cbv. discriminate.
Defined.

(* ------------------------------------------------------------------ *)
(** ** Configuration commands *)

(** C5: [setupwebhook] for a key that may already have a row writes the
    new row whole: the stored row is exactly the one built from this call
    ([enabled = 1], [last_incident_id = NULL], the new channel, URL and
    [ping_role_id], absent when no role is given), whatever was stored
    before; every other key keeps its row. The store is a map from the
    primary key, so it holds at most one row per key. *)
Theorem setup_webhook_replaces_row (st : Store) (guild channel : Z) (service url : string)
    (ping_role : option Z) :
  let '(st', reply) := setup_webhook true guild channel service ping_role (WebhookCreated url) st in
  st' !! (guild, service) = Some (mkRow channel url ping_role 1 None) /\
  (forall k, k <> (guild, service) -> st' !! k = st !! k) /\
  reply = ReplySetupComplete service ping_role.
Proof.
  simpl. unfold sql_insert_or_replace. split; [by rewrite lookup_insert_eq|].
  split; [|done]. intros k Hk.
  rewrite lookup_insert_ne by congruence. by rewrite lookup_delete_ne by congruence.
Qed.

(** The old [ping_role_id] does not survive a setup without a role. *)
Example setup_webhook_drops_old_ping :
  (fst (setup_webhook true 7 12 "vercel" None (WebhookCreated "https://discord.com/api/webhooks/2/y")
          inc_41_42_store)) !! (7%Z, "vercel")
  = Some (mkRow 12 "https://discord.com/api/webhooks/2/y" None 1 None).
Proof. reflexivity. Qed.

(** C10: [togglewebhook] by a caller with the Manage Webhooks permission
    rewrites only the [enabled] column of the selected row, to the stored
    form of [not enabled]; with no row for the key it writes nothing and
    answers "No webhook found"; without the permission it writes nothing. *)
Theorem toggle_webhook_only_flips_enabled (st : Store) (guild : Z) (service : string) :
  toggle_webhook true guild service st =
    match st !! (guild, service) with
    | Some r =>
        (<[(guild, service) := mkRow (channel_id r) (webhook_url r) (ping_role_id r)
                                  (py_not_int (enabled r)) (last_incident_id r)]> st,
         ReplyToggled service (negb (Z.eqb (py_not_int (enabled r)) 0)))
    | None => (st, ReplyNoWebhookFound service)
    end /\
  (forall r, st !! (guild, service) = Some r ->
     (Z.eqb (py_not_int (enabled r)) 0) = negb (Z.eqb (enabled r) 0)) /\
  toggle_webhook false guild service st = (st, ReplyNeedManageWebhooks).
Proof.
  split; [|split; [|done]].
  - unfold toggle_webhook; simpl.
    destruct (st !! (guild, service)) as [r|] eqn:Hr; [|done].
    f_equal. unfold sql_update_enabled.
    apply map_eq. intros k. destruct (decide (k = (guild, service))) as [->|Hne].
    + by rewrite lookup_alter_eq, lookup_insert_eq, Hr.
    + by rewrite lookup_alter_ne, lookup_insert_ne by congruence.
  - intros r _. unfold py_not_int. by destruct (Z.eqb (enabled r) 0).
Qed.

(* ------------------------------------------------------------------ *)
(** ** The notification renderer *)

Lemma string_app_nil_l (b : string) : "" +:+ b = b.
Proof. reflexivity. Qed.

Lemma string_app_cons (ch : Ascii.ascii) (a b : string) : String ch a +:+ b = String ch (a +:+ b).
Proof. reflexivity. Qed.

Lemma string_app_assoc (a b c : string) : (a +:+ b) +:+ c = a +:+ (b +:+ c).
Proof.
  induction a as [|ch a IH]; [done|]. rewrite !string_app_cons. by rewrite IH.
Qed.

Lemma string_app_nil_r (a : string) : a +:+ "" = a.
Proof. induction a as [|ch a IH]; [done|]. rewrite string_app_cons. by rewrite IH. Qed.

Lemma contains_refl (s : string) : contains s s.
Proof. exists "", "". simpl. by rewrite string_app_nil_r. Qed.

Lemma contains_trans (a b c : string) : contains a b -> contains b c -> contains a c.
Proof.
  intros (p1 & q1 & ->) (p2 & q2 & ->).
  exists (p1 +:+ p2), (q2 +:+ q1). by rewrite !string_app_assoc.
Qed.

Lemma contains_app_l (a b c : string) : contains b c -> contains (a +:+ b) c.
Proof. intros (p & q & ->). exists (a +:+ p), q. by rewrite string_app_assoc. Qed.

Lemma contains_app_r (a b c : string) : contains a c -> contains (a +:+ b) c.
Proof. intros (p & q & ->). exists p, (q +:+ b). by rewrite !string_app_assoc. Qed.

Lemma py_len_app (a b : string) : py_len (a +:+ b) = (py_len a + py_len b)%nat.
Proof. induction a as [|c a IH]; [done|]. simpl. rewrite IH. lia. Qed.

(** [s[:n]] holds [n] code points when [s] has at least [n]. *)
Lemma py_len_py_prefix (n : nat) (s : string) :
  (n <= py_len s)%nat -> py_len (py_prefix n s) = n.
Proof.
  revert n; induction s as [|c s IH]; intros n Hn; simpl in *; [lia|].
  destruct (utf8_cont c) eqn:Hc; simpl.
  - rewrite Hc. by apply IH.
  - destruct n as [|m]; [done|]. simpl. rewrite Hc. f_equal. apply IH. lia.
Qed.

(** [s[:n]] is a prefix of [s] ending where a code point begins (or at
    the end of [s]). *)
Lemma py_prefix_split (n : nat) (s : string) :
  exists rest, s = py_prefix n s +:+ rest /\
    match rest with EmptyString => True | String c _ => utf8_cont c = false end.
Proof.
  revert n; induction s as [|c s IH]; intros n; simpl.
  - by exists EmptyString.
  - destruct (utf8_cont c) eqn:Hc.
    + destruct (IH n) as (rest & Hs & Hr). exists rest. split; [|done].
      rewrite string_app_cons. by f_equal.
    + destruct n as [|m].
      * exists (String c s). by split.
      * destruct (IH m) as (rest & Hs & Hr). exists rest. split; [|done].
        rewrite string_app_cons. by f_equal.
Qed.

(** [incidents_text] keeps what it accumulated and adds every entry. *)
Lemma incidents_text_contains (l : list Incident) (acc t : string) :
  incidents_text l acc = Some t ->
  contains t acc /\
  (forall inc e, inc ∈ l -> incident_entry inc = Some e -> contains t e).
Proof.
  revert acc; induction l as [|inc l IH]; intros acc Ht; simpl in Ht.
  - injection Ht as <-. split; [apply contains_refl|]. intros ? ? Hin. by apply not_elem_of_nil in Hin.
  - destruct (incident_entry inc) as [e|] eqn:He; [|done].
    destruct (IH _ Ht) as [Hacc Hall]. split.
    + eapply contains_trans; [exact Hacc|]. apply contains_app_r, contains_refl.
    + intros inc' e' Hin He'. apply elem_of_cons in Hin as [->|Hin]; [|by eapply Hall].
      rewrite He in He'. injection He' as <-.
      eapply contains_trans; [exact Hacc|]. apply contains_app_l, contains_refl.
Qed.

(** The entry of an incident with a non-empty latest update holds the
    truncated update. *)
Lemma incident_entry_contains (inc : Incident) (body e : string) :
  latest_update inc = Some body -> body <> "" -> incident_entry inc = Some e ->
  contains e (truncate_update body).
Proof.
  intros Hb Hne He. unfold incident_entry in He. rewrite Hb in He.
  injection He as <-. destruct (String.eqb_spec body "") as [->|_]; [done|].
  apply contains_app_l. apply contains_app_r, contains_refl.
Qed.

(** C8: an update text longer than 200 characters (code points, as
    Python's [len] counts them) is rendered as its first 200 characters
    (the bytes of its first 200 code points, a prefix of the text ending
    where a code point begins) followed by ["..."], a text of at most 200
    characters is rendered as it is, only the first 3 incidents of the
    list affect the rendered notification, and every one of them with a
    non-empty latest update has its (truncated) update in the "Recent
    Incidents" field of the rendered embed. *)
Theorem render_truncates_long_updates :
  (forall update : string, (200 < py_len update)%nat ->
     truncate_update update = py_prefix 200 update +:+ "..." /\
     py_len (py_prefix 200 update) = 200%nat /\
     exists rest, update = py_prefix 200 update +:+ rest /\
       match rest with EmptyString => True | String c _ => utf8_cont c = false end) /\
  (forall update : string, (py_len update <= 200)%nat -> truncate_update update = update) /\
  (forall (service_name : string) (data : Snapshot),
     create_status_embed service_name data =
     create_status_embed service_name
       (mkSnapshot (snap_status data) (firstn 3 (snap_incidents data)) (snap_components data))) /\
  (forall (service_name : string) (data : Snapshot) (embed : Embed) (inc : Incident) (body : string),
     create_status_embed service_name data = Some embed ->
     inc ∈ firstn 3 (snap_incidents data) -> latest_update inc = Some body -> body <> "" ->
     exists f, f ∈ embed_fields embed /\ field_name f = "Recent Incidents" /\
               contains (field_value f) (truncate_update body)).
Proof.
  split; [|split; [|split]].
  - intros u Hu. unfold truncate_update.
    destruct (Nat.ltb_spec 200 (py_len u)); [|lia].
    split; [done|]. split; [apply py_len_py_prefix; lia|]. apply py_prefix_split.
  - intros u Hu. unfold truncate_update.
    destruct (Nat.ltb_spec 200 (py_len u)); [lia|done].
  - intros svc data. unfold create_status_embed. simpl. by rewrite firstn_firstn.
  - intros svc data embed inc body He Hin Hb Hne.
    unfold create_status_embed in He.
    destruct (firstn 3 (snap_incidents data)) as [|i0 is] eqn:Hf;
      [by apply not_elem_of_nil in Hin|].
    destruct (incidents_text (i0 :: is) "") as [t|] eqn:Ht; [|revert He; repeat case_match; congruence].
    assert (exists e, incident_entry inc = Some e) as [e He'].
    { unfold incident_entry. rewrite Hb. by eexists. }
    destruct (incidents_text_contains _ _ _ Ht) as [_ Hall].
    pose proof (Hall inc e Hin He') as Hc.
    exists (mkField "Recent Incidents" t false).
    assert (contains t (truncate_update body)) as Hct.
    { eapply contains_trans; [exact Hc|]. by eapply incident_entry_contains. }
    revert He; repeat case_match; intros He; try congruence;
      injection He as <-; simpl; (split; [by left|by split]).
Qed.

Definition long_update : string := String.string_of_list_ascii (repeat (Ascii.ascii_of_nat 97) 250).

(** The spec's example: a 250-character update is rendered as 200
    characters and ["..."]. *)
Example long_update_rendered :
  create_status_embed "vercel"
    (mkSnapshot (mkStatusObj "Partial" "major")
       [mkIncident (Some "inc-1") (Some "Outage") (Some "identified") (Some [Some long_update])] [])
  = Some (mkEmbed "Vercel Status" "**Overall Status:** Partial" 0xff0000
            [mkField "Recent Incidents"
               ("**Outage** (identified)" +:+ nl +:+
                String.string_of_list_ascii (repeat (Ascii.ascii_of_nat 97) 200) +:+ "..." +:+ nl +:+ nl) false;
             mkField "Components" "All systems operational" false] "Last updated").
Proof. vm_compute. reflexivity. Qed.

(** An em dash (three UTF-8 bytes) followed by 198 ['a']: 199
    characters, so the update is kept whole; with 201 ['a'] after the
    dash it has 202 characters and keeps the dash and 199 ['a']. *)
Definition em_dash : string :=
  String (Ascii.ascii_of_nat 226) (String (Ascii.ascii_of_nat 128) (String (Ascii.ascii_of_nat 148) EmptyString)).

Definition a_run (n : nat) : string := String.string_of_list_ascii (repeat (Ascii.ascii_of_nat 97) n).

Example truncate_update_counts_code_points :
  String.length (em_dash +:+ a_run 198) = 201%nat /\
  py_len (em_dash +:+ a_run 198) = 199%nat /\
  truncate_update (em_dash +:+ a_run 198) = em_dash +:+ a_run 198 /\
  truncate_update (em_dash +:+ a_run 201) = em_dash +:+ a_run 199 +:+ "...".
Proof. vm_compute. repeat split. Qed.

(* ------------------------------------------------------------------ *)
(** ** The status source *)

Definition vercel_base : string := "https://vercel.statuspage.io/api/v2".

(** A status page whose incidents endpoint answers 503 with a JSON error
    object, the other two endpoints answering 200. *)
Definition incidents_503 (url : string) : GetOutcome :=
  if String.eqb url (vercel_base +:+ "/incidents.json")
  then GetResponse 503 true (BodyJson (JObj [("error", JStr "Service Unavailable")]))
  else if String.eqb url (vercel_base +:+ "/status.json")
  then GetResponse 200 true (BodyJson (JObj [("status", JObj [("indicator", JStr "none");
                                                              ("description", JStr "All Systems Operational")])]))
  else GetResponse 200 true (BodyJson (JObj [("components", JArr [])])).

(** C4 fails: the incidents read answers 503, yet [get_service_data]
    returns a snapshot, with an empty incident list in place of the
    failed read. *)
Lemma get_service_data_accepts_non_2xx :
  incidents_503 (vercel_base +:+ "/incidents.json")
    = GetResponse 503 true (BodyJson (JObj [("error", JStr "Service Unavailable")])) /\
  get_service_data incidents_503 "vercel"
    = Some (mkRawSnapshot
              (JObj [("status", JObj [("indicator", JStr "none");
                                      ("description", JStr "All Systems Operational")])])
              (JArr []) (JArr [])).
Proof. split; vm_compute; reflexivity. Qed.

(** C4, as the code does it: [get_service_data] returns a snapshot
    exactly when the service is known, each of the three reads yields a
    JSON value (no network error, a JSON content type, a well-formed
    body), and the incidents and components bodies are objects; the
    snapshot is then the status body as parsed and the ['incidents'] and
    ['components'] values, an empty list when the key is absent.
    Otherwise the result is the failure value [None], never a partial
    snapshot. The HTTP status code of a response plays no part. *)
Theorem get_service_data_all_or_nothing :
  (forall (http_get : string -> GetOutcome) (service_name : string) (r : RawSnapshot),
     get_service_data http_get service_name = Some r <->
     exists url status incidents_data components_data incidents components,
       SERVICES service_name = Some url /\
       resp_json (http_get (url +:+ "/status.json")) = Some status /\
       resp_json (http_get (url +:+ "/incidents.json")) = Some incidents_data /\
       resp_json (http_get (url +:+ "/components.json")) = Some components_data /\
       py_get incidents_data "incidents" (JArr []) = Some incidents /\
       py_get components_data "components" (JArr []) = Some components /\
       r = mkRawSnapshot status incidents components) /\
  (forall (code1 code2 : Z) (ct : bool) (body : Body),
     resp_json (GetResponse code1 ct body) = resp_json (GetResponse code2 ct body)) /\
  (forall (j : Json) (key : string) (dflt : Json),
     py_get j key dflt <> None <-> exists fields, j = JObj fields).
Proof.
  split; [|split].
  - intros http_get svc r. unfold get_service_data. split.
    + intros H. repeat (case_match; try discriminate).
      injection H as <-. eauto 20.
    + intros (url & js & ji & jc & i & c & Hu & Hs & Hi & Hc & Hpi & Hpc & ->).
      by rewrite Hu, Hs, Hi, Hc, Hpi, Hpc.
  - done.
  - intros j key dflt. split.
    + destruct j; simpl; try congruence. by eexists.
    + by intros [fields ->].
Qed.

(* ------------------------------------------------------------------ *)
(** ** Bulk sending *)

Section SendLoopFacts.
Variable send : nat -> SendOutcome.
Variable message : string.
Variable count : Z.

Lemma send_loop_all_ok (n i : nat) (s f : Z) :
  (forall j, send j = SendOk) ->
  send_loop send message count 0 i n s f =
    (map (fun j => ChSend j message) (seq i n), (s + Z.of_nat n)%Z, f).
Proof.
  intros Hok. revert i s; induction n as [|n IH]; intros i s; simpl.
  - f_equal. f_equal. lia.
  - rewrite Hok, IH. simpl. do 2 f_equal. lia.
Qed.

Lemma send_loop_stops_at_forbidden (delay : Q) (n i k : nat) (s f : Z) :
  (i <= k < i + n)%nat -> send k = SendForbidden ->
  (forall j, (i <= j < k)%nat -> send j <> SendForbidden) ->
  attempts (send_loop send message count delay i n s f).1.1 = seq i (S (k - i)).
Proof.
  revert i s f; induction n as [|n IH]; intros i s f Hk Hf Hbefore; [lia|].
  cbn [send_loop].
  destruct (decide (i = k)) as [->|Hne].
  - rewrite Hf. simpl. by rewrite Nat.sub_diag.
  - assert (send i <> SendForbidden) as Hi by (apply Hbefore; lia).
    assert (S (k - i) = S (S (k - S i))) as -> by lia.
    cbn [seq].
    destruct (send i) as [| |code|]; try congruence.
    + destruct (send_loop send message count delay (S i) n _ f) as [[tr s'] f'] eqn:E.
      simpl. destruct (Qpos delay && _)%bool; simpl;
        (f_equal; pose proof (IH (S i) (s + 1)%Z f ltac:(lia) Hf ltac:(intros; apply Hbefore; lia)) as H;
         rewrite E in H; exact H).
    + destruct (send_loop send message count delay (S i) n s _) as [[tr s'] f'] eqn:E.
      simpl. destruct (Z.eqb code 429); simpl;
        (f_equal; pose proof (IH (S i) s (f + 1)%Z ltac:(lia) Hf ltac:(intros; apply Hbefore; lia)) as H;
         rewrite E in H; exact H).
    + destruct (send_loop send message count delay (S i) n s _) as [[tr s'] f'] eqn:E.
      simpl. f_equal.
      pose proof (IH (S i) s (f + 1)%Z ltac:(lia) Hf ltac:(intros; apply Hbefore; lia)) as H.
      rewrite E in H. exact H.
Qed.
End SendLoopFacts.

(** C7: [sendmessage] with [count = 5] and [delay = 0] to a destination
    that accepts every send makes exactly the sends 0..4 and no sleep (and
    so for every valid count); and once a send raises [discord.Forbidden]
    the loop stops: the attempts are exactly those up to and including
    the first forbidden one. *)
Theorem send_message_count_and_forbidden_break :
  (forall message : string,
     send_message (fun _ => SendOk) message 5 0 =
       (map (fun j => ChSend j message) (seq 0 5), ReplySent 5 5 0 true)) /\
  (forall (send : nat -> SendOutcome) (message : string) (count : Z),
     (1 <= count <= 50)%Z -> (forall j, send j = SendOk) ->
     send_message send message count 0 =
       (map (fun j => ChSend j message) (seq 0 (Z.to_nat count)),
        ReplySent count count 0 (1 <? count)%Z)) /\
  (forall (send : nat -> SendOutcome) (message : string) (count : Z) (delay : Q) (k : nat),
     (1 <= count <= 50)%Z -> (0 <= delay)%Q -> (k < Z.to_nat count)%nat ->
     send k = SendForbidden -> (forall j, (j < k)%nat -> send j <> SendForbidden) ->
     attempts (send_message send message count delay).1 = seq 0 (S k)).
Proof.
  split; [|split].
  - intros message. reflexivity.
  - intros send message count Hc Hok. unfold send_message.
    destruct (Z.ltb_spec count 1); [lia|]. destruct (Z.ltb_spec 50 count); [lia|].
    simpl. rewrite send_loop_all_ok by done. do 3 f_equal. lia.
  - intros send message count delay k Hc Hd Hk Hf Hbefore. unfold send_message.
    destruct (Z.ltb_spec count 1); [lia|]. destruct (Z.ltb_spec 50 count); [lia|].
    simpl. apply Qle_bool_iff in Hd. rewrite Hd. simpl.
    destruct (send_loop send message count delay 0 (Z.to_nat count) 0 0) as [[tr s] f] eqn:E.
    simpl. pose proof (send_loop_stops_at_forbidden send message count delay (Z.to_nat count) 0 k 0 0
                         ltac:(lia) Hf ltac:(intros; apply Hbefore; lia)) as Hl.
    rewrite E in Hl. simpl in Hl. by rewrite Nat.sub_0_r in Hl.
Qed.

(** The spec's example: sends 1 and 3 of 5 are refused; only sends 0
    and 1 are attempted. *)
Example send_message_two_forbidden :
  attempts (send_message (fun j => if (j =? 1)%nat || (j =? 3)%nat then SendForbidden else SendOk)
              "hello" 5 0).1 = [0; 1]%nat.
Proof. reflexivity. Qed.

(* ------------------------------------------------------------------ *)
(** ** Multi-server sending *)

Lemma dict_get_set_eq (k : Z) (v : GuildResult) (d : list (Z * GuildResult)) :
  dict_get k (dict_set k v d) = Some v.
Proof.
  induction d as [|[k' v'] d IH]; simpl; [by rewrite Z.eqb_refl|].
  destruct (Z.eqb_spec k k') as [->|Hne]; simpl; [by rewrite Z.eqb_refl|].
  destruct (Z.eqb_spec k k'); [done|]. exact IH.
Qed.

Lemma dict_get_set_ne (k k' : Z) (v : GuildResult) (d : list (Z * GuildResult)) :
  k <> k' -> dict_get k' (dict_set k v d) = dict_get k' d.
Proof.
  intros Hne. induction d as [|[k0 v0] d IH]; simpl.
  - destruct (Z.eqb_spec k' k); [congruence|done].
  - destruct (Z.eqb_spec k k0) as [->|Hk0]; simpl.
    + destruct (Z.eqb_spec k' k0); [congruence|done].
    + destruct (Z.eqb_spec k' k0); [done|exact IH].
Qed.

Section MultiFacts.
Variable get_guild : Z -> option Guild.
Variable msend : Z -> Z -> nat -> SendOutcome.
Variable message : string.
Variable embed_format : bool.
Variable count : Z.
Variable delay : Q.

Local Abbreviation step := (multi_step get_guild msend message embed_format count delay).

(** Every stored line says "not found" exactly for ids the bot cannot resolve. *)
Definition results_faithful (d : list (Z * GuildResult)) : Prop :=
  forall g v, dict_get g d = Some v -> (v = GuildNotFound <-> get_guild g = None).

Lemma multi_step_shape (n : nat) (ms : MultiState) (gid : Z) :
  exists v, results (step n ms gid) = dict_set gid v (results ms) /\
            (v = GuildNotFound <-> get_guild gid = None).
Proof.
  unfold multi_step. destruct (get_guild gid) as [g|].
  - destruct (pick_channel g) as [ch|].
    + destruct (guild_sends _ _ _ _ _ _ _ _ _ _ _ _) as [[tr s] f].
      eexists. split; [reflexivity|]. split; [|done].
      by destruct (Z.eqb s count).
    + eexists. split; [reflexivity|]. by split.
  - eexists. split; [reflexivity|]. by split.
Qed.

Lemma multi_fold_faithful (n : nat) (ids : list Z) (ms : MultiState) :
  results_faithful (results ms) -> results_faithful (results (fold_left (step n) ids ms)).
Proof.
  revert ms; induction ids as [|gid ids IH]; intros ms Hf; simpl; [done|].
  apply IH. destruct (multi_step_shape n ms gid) as (v & -> & Hv).
  intros g w Hg. destruct (Z.eq_dec gid g) as [->|Hne].
  - rewrite dict_get_set_eq in Hg. by injection Hg as <-.
  - rewrite dict_get_set_ne in Hg by done. by apply Hf.
Qed.

Lemma multi_fold_keys (n : nat) (ids : list Z) (ms : MultiState) (g : Z) :
  g ∈ ids \/ is_Some (dict_get g (results ms)) ->
  is_Some (dict_get g (results (fold_left (step n) ids ms))).
Proof.
  revert ms; induction ids as [|gid ids IH]; intros ms Hg; simpl.
  - destruct Hg as [Hin|Hs]; [by apply not_elem_of_nil in Hin|done].
  - apply IH. destruct (multi_step_shape n ms gid) as (v & -> & _).
    destruct (Z.eq_dec gid g) as [->|Hne].
    + right. rewrite dict_get_set_eq. by eexists.
    + rewrite dict_get_set_ne by done.
      destruct Hg as [Hin|Hs]; [|by right].
      apply elem_of_cons in Hin as [->|Hin]; [congruence|by left].
Qed.
End MultiFacts.

(** C9: in [multisend], an id the bot cannot resolve is reported as not
    found, adds its full [count] to the failed total and sends nothing,
    and the loop goes on with every later id; every id that resolves to
    a guild is reported with a line of its own, not "not found". *)
Theorem multi_send_skips_unknown_server
    (get_guild : Z -> option Guild) (msend : Z -> Z -> nat -> SendOutcome)
    (message : string) (embed_format : bool) (count : Z) (delay : Q)
    (pre post : list Z) (bad : Z) :
  get_guild bad = None -> (1 <= count <= 20)%Z -> (0 <= delay)%Q ->
  (length (pre ++ bad :: post) <= 20)%nat ->
  let ids := pre ++ bad :: post in
  let step := multi_step get_guild msend message embed_format count delay (length ids) in
  let ms := multi_loop get_guild msend message embed_format count delay ids in
  multi_send get_guild msend message embed_format count delay (Some ids) =
    (mtrace ms, MultiResults (results ms) (total_sent ms) (total_failed ms)
                  (Qeq_bool delay 0 && (1 <? count)%Z)) /\
  dict_get bad (results ms) = Some GuildNotFound /\
  (forall g, g ∈ ids -> get_guild g <> None ->
     exists v, dict_get g (results ms) = Some v /\ v <> GuildNotFound) /\
  ms = fold_left step post (step (fold_left step pre (mkMultiState [] 0 0 [])) bad) /\
  (forall ms0 : MultiState,
     step ms0 bad = mkMultiState (dict_set bad GuildNotFound (results ms0)) (total_sent ms0)
                      (total_failed ms0 + count)%Z (mtrace ms0)).
Proof.
  intros Hbad Hc Hd Hlen ids step ms.
  assert (results_faithful get_guild (results ms)) as Hf.
  { apply multi_fold_faithful. intros g v Hg. discriminate. }
  split; [|split; [|split; [|split]]].
  - unfold multi_send.
    destruct (Z.ltb_spec count 1); [lia|]. destruct (Z.ltb_spec 20 count); [lia|].
    simpl. apply Qle_bool_iff in Hd. rewrite Hd. simpl.
    destruct (Nat.ltb_spec 20 (length ids)); [unfold ids in *; lia|]. done.
  - destruct (multi_fold_keys get_guild msend message embed_format count delay (length ids) ids
                (mkMultiState [] 0 0 []) bad ltac:(left; unfold ids; apply elem_of_app; right; by left))
      as [v Hv].
    unfold ms, multi_loop. rewrite Hv. f_equal. by apply (Hf bad v).
  - intros g Hg Hres.
    destruct (multi_fold_keys get_guild msend message embed_format count delay (length ids) ids
                (mkMultiState [] 0 0 []) g ltac:(by left)) as [v Hv].
    exists v. split; [done|]. intros ->. by apply Hres, (Hf g GuildNotFound).
  - unfold ms, multi_loop. fold step.
    transitivity (fold_left step (pre ++ bad :: post) (mkMultiState [] 0 0 [])); [reflexivity|].
    by rewrite fold_left_app.
  - intros ms0. unfold step, multi_step. by rewrite Hbad.
Qed.

Definition guild_a : Guild := mkGuild "Alpha" (Some (mkChannel 10 true)) [].
Definition guild_b : Guild := mkGuild "Beta" None [mkChannel 20 false; mkChannel 21 true].
Definition two_guilds (gid : Z) : option Guild :=
  if Z.eqb gid 111 then Some guild_a else if Z.eqb gid 222 then Some guild_b else None.

Lemma multi_send_skips_unknown_server_witness :
  (two_guilds 999 = None /\ (1 <= 2 <= 20)%Z /\ (0 <= 0)%Q /\
   (length ([111%Z] ++ 999%Z :: [222%Z]) <= 20)%nat) /\
  (let ids := [111%Z] ++ 999%Z :: [222%Z] in
   let step := multi_step two_guilds (fun _ _ _ => SendOk) "hi" false 2 0 (length ids) in
   let ms := multi_loop two_guilds (fun _ _ _ => SendOk) "hi" false 2 0 ids in
   multi_send two_guilds (fun _ _ _ => SendOk) "hi" false 2 0 (Some ids) =
     (mtrace ms, MultiResults (results ms) (total_sent ms) (total_failed ms)
                   (Qeq_bool 0 0 && (1 <? 2)%Z)) /\
   dict_get 999%Z (results ms) = Some GuildNotFound /\
   (forall g, g ∈ ids -> two_guilds g <> None ->
      exists v, dict_get g (results ms) = Some v /\ v <> GuildNotFound) /\
   ms = fold_left step [222%Z] (step (fold_left step [111%Z] (mkMultiState [] 0 0 [])) 999%Z) /\
   (forall ms0 : MultiState,
      step ms0 999%Z = mkMultiState (dict_set 999%Z GuildNotFound (results ms0)) (total_sent ms0)
                       (total_failed ms0 + 2)%Z (mtrace ms0))).
Proof.
  split.
  - split; [reflexivity|]. split; [lia|]. split; [unfold Qle; simpl; lia|]. simpl. lia.
  - apply (multi_send_skips_unknown_server two_guilds (fun _ _ _ => SendOk) "hi" false 2 0
             [111%Z] [222%Z] 999); [reflexivity|lia|unfold Qle; simpl; lia|simpl; lia].
Defined.

(** The run itself: 111 and 222 get two sends each, 999 is not found. *)
Example multi_send_three_ids :
  snd (multi_send two_guilds (fun _ _ _ => SendOk) "hi" false 2 0 (Some [111; 999; 222]%Z)) =
  MultiResults [(111%Z, GuildAllSent "Alpha" 2 2); (999%Z, GuildNotFound);
                (222%Z, GuildAllSent "Beta" 2 2)] 4 2 true.
Proof. vm_compute. reflexivity. Qed.

(* ------------------------------------------------------------------ *)
(** ** Owner-only commands *)

Lemma find_command_owner_only (OWNER_ID : Z) (name : string) :
  name ∈ ["sendmessage"; "sendembed"; "broadcast"; "multisend"] ->
  find_command OWNER_ID name = Some (mkAppCommand name [is_owner OWNER_ID]).
Proof.
  intros Hn. repeat (apply elem_of_cons in Hn as [->|Hn]; [reflexivity|]).
  by apply not_elem_of_nil in Hn.
Qed.

Lemma find_command_botstats (OWNER_ID : Z) : find_command OWNER_ID "botstats" = None.
Proof. reflexivity. Qed.

(** C6: the four registered owner-only commands ([sendmessage],
    [sendembed], [broadcast], [multisend]) answer a caller whose id is not
    [OWNER_ID] with the restricted-to-owner reply and run no callback.
    [botstats] is not: [bot_stats] is never registered with the command
    tree, so the lookup fails with [CommandNotFound] and the handler sends
    the generic error reply, to a non-owner and to the owner alike. *)
Theorem owner_only_rejection_misses_botstats (OWNER_ID user : Z) :
  user <> OWNER_ID ->
  (forall name, name ∈ ["sendmessage"; "sendembed"; "broadcast"; "multisend"] ->
     dispatch OWNER_ID user name = [DResponse msg_owner_only true]) /\
  dispatch OWNER_ID user "botstats" =
    [DLog "Command error: CommandNotFound"; DResponse msg_command_error true] /\
  (DResponse msg_owner_only true ∉ dispatch OWNER_ID user "botstats") /\
  dispatch OWNER_ID OWNER_ID "botstats" = dispatch OWNER_ID user "botstats" /\
  (forall name, name ∈ ["sendmessage"; "sendembed"; "broadcast"; "multisend"; "botstats"] ->
     Forall (fun e => is_callback e = false) (dispatch OWNER_ID user name)).
Proof.
  intros Hu.
  assert (forall name, name ∈ ["sendmessage"; "sendembed"; "broadcast"; "multisend"] ->
            dispatch OWNER_ID user name = [DResponse msg_owner_only true]) as Hown.
  { intros name Hn. unfold dispatch. rewrite (find_command_owner_only OWNER_ID name Hn).
    cbn [cmd_checks forallb cmd_name]. unfold is_owner.
    replace (Z.eqb user OWNER_ID) with false by (symmetry; by apply Z.eqb_neq).
    simpl. rewrite bool_decide_eq_true_2; [done|].
    repeat (apply elem_of_cons in Hn as [->|Hn]; [by repeat constructor|]).
    by apply not_elem_of_nil in Hn. }
  assert (forall u, dispatch OWNER_ID u "botstats" =
            [DLog "Command error: CommandNotFound"; DResponse msg_command_error true]) as Hbs.
  { intros u. unfold dispatch. by rewrite find_command_botstats. }
  split; [done|]. split; [done|]. split.
  { rewrite Hbs. intros Hin. apply elem_of_cons in Hin as [Hin|Hin]; [discriminate|].
    apply elem_of_cons in Hin as [Hin|Hin]; [|by apply not_elem_of_nil in Hin].
    injection Hin as Hm. discriminate Hm. }
  split; [by rewrite !Hbs|].
  intros name Hn. apply elem_of_cons in Hn as [->|Hn].
  { rewrite Hown by (by left). by repeat constructor. }
  repeat (apply elem_of_cons in Hn as [->|Hn];
          [first [rewrite Hown by (by repeat constructor) | rewrite Hbs]; by repeat constructor|]).
  by apply not_elem_of_nil in Hn.
Qed.

Lemma owner_only_rejection_misses_botstats_witness :
  (7%Z <> 42%Z) /\
  ((forall name, name ∈ ["sendmessage"; "sendembed"; "broadcast"; "multisend"] ->
      dispatch 42 7 name = [DResponse msg_owner_only true]) /\
   dispatch 42 7 "botstats" =
     [DLog "Command error: CommandNotFound"; DResponse msg_command_error true] /\
   (DResponse msg_owner_only true ∉ dispatch 42 7 "botstats") /\
   dispatch 42 42 "botstats" = dispatch 42 7 "botstats" /\
   (forall name, name ∈ ["sendmessage"; "sendembed"; "broadcast"; "multisend"; "botstats"] ->
      Forall (fun e => is_callback e = false) (dispatch 42 7 name))).
Proof.
  split; [lia|]. apply (owner_only_rejection_misses_botstats 42 7). lia.
Defined.

(** The owner, by contrast, reaches the callback of the registered ones. *)
Example owner_runs_sendmessage : dispatch 42 42 "sendmessage" = [DRunCallback "sendmessage"].
Proof. reflexivity. Qed.

(* ================================================================== *)
(** * Further properties of the module *)

(* ------------------------------------------------------------------ *)
(** ** The [webhooks] table under the configuration commands and the poller *)

(** Every row's [enabled] column holds 0 or 1. *)
Definition enabled_flags_ok (st : Store) : Prop :=
  map_Forall (fun _ r => enabled r = 0%Z \/ enabled r = 1%Z) st.

(** The shape of a tick's result, row by row. *)
Lemma tick_row_shape (fetch : string -> option Snapshot)
    (post : Key -> string -> Payload -> PostOutcome) (st : Store) :
  let '(st', _, _) := check_and_post_incidents fetch post st in
  forall k, match st !! k with
            | None => st' !! k = None
            | Some r => exists id, st' !! k = Some (set_last_incident r id)
            end.
Proof.
  destruct (check_and_post_incidents fetch post st) as [[st' tr] c] eqn:E.
  intros k. destruct (st !! k) as [r|] eqn:Hk.
  - pose proof (tick_row fetch post st k r Hk) as H. rewrite E in H.
    destruct H as [(_ & _ & H) | (_ & _ & _ & data & latest & older & _ & _ & _ & H)].
    + exists (last_incident_id r). rewrite H. by destruct r.
    + by eexists.
  - pose proof (tick_no_row fetch post st k Hk) as H. rewrite E in H.
    by destruct H.
Qed.

(** X1: [remove_webhook] deletes the row of its own key, if there is one,
    and reports whether it did; it leaves every other row alone, and
    without the permission it changes nothing. *)
Theorem remove_webhook_deletes_own_row (manage_webhooks : bool) (guild : Z)
    (service : string) (st : Store) :
  let '(st', reply) := remove_webhook manage_webhooks guild service st in
  (forall k, k <> (guild, service) -> st' !! k = st !! k) /\
  (manage_webhooks = false -> st' = st /\ reply = RemoveNeedManageWebhooks) /\
  (manage_webhooks = true ->
     st' !! (guild, service) = None /\
     reply = match st !! (guild, service) with
             | Some _ => RemoveDone service
             | None => RemoveNotFound service
             end).
Proof.
  unfold remove_webhook, sql_delete. destruct manage_webhooks; simpl.
  - destruct (st !! (guild, service)) as [r|] eqn:Hk; simpl.
    + split; [intros k Hne; by rewrite lookup_delete_ne|].
      split; [done|]. intros _. by rewrite lookup_delete_eq.
    + split; [done|]. split; done.
  - split; [done|]. split; done.
Qed.

(** X2: removing a subscription right after setting it up deletes the
    key: the row the setup replaced is not brought back. *)
Theorem remove_after_setup_deletes_key (guild channel : Z) (service url : string)
    (ping_role : option Z) (st : Store) :
  remove_webhook true guild service
    (setup_webhook true guild channel service ping_role (WebhookCreated url) st).1 =
  (delete (guild, service) st, RemoveDone service).
Proof.
  unfold remove_webhook, setup_webhook, sql_delete, sql_insert_or_replace. simpl.
  rewrite lookup_insert_eq. simpl. f_equal.
  by rewrite delete_insert_eq, delete_delete_eq.
Qed.

(** X3: every command that writes the table, and the poller, keep the
    [enabled] column at 0 or 1. *)
Theorem enabled_column_stays_boolean (st : Store) :
  enabled_flags_ok st ->
  (forall manage guild channel service ping created,
     enabled_flags_ok (setup_webhook manage guild channel service ping created st).1) /\
  (forall manage guild service, enabled_flags_ok (toggle_webhook manage guild service st).1) /\
  (forall manage guild service, enabled_flags_ok (remove_webhook manage guild service st).1) /\
  (forall fetch post, enabled_flags_ok (check_and_post_incidents fetch post st).1.1).
Proof.
  intros Hok. split; [|split; [|split]].
  - intros manage guild channel service ping created. unfold setup_webhook.
    destruct manage; simpl; [|done].
    destruct created as [url| |]; simpl; try done.
    unfold sql_insert_or_replace. apply map_Forall_insert_2; [by right|].
    by apply map_Forall_delete.
  - intros manage guild service. unfold toggle_webhook.
    destruct manage; simpl; [|done].
    destruct (st !! (guild, service)) as [r|] eqn:Hk; simpl; [|done].
    unfold sql_update_enabled. intros k r' Hk'.
    destruct (decide (k = (guild, service))) as [->|Hne].
    + rewrite lookup_alter_eq, Hk in Hk'. injection Hk' as <-. simpl.
      unfold py_not_int. destruct (Z.eqb (enabled r) 0); [by right|by left].
    + rewrite lookup_alter_ne in Hk' by done. exact (Hok k r' Hk').
  - intros manage guild service. unfold remove_webhook, sql_delete.
    destruct manage; simpl; [|done].
    destruct (st !! (guild, service)); simpl; [|done].
    by apply map_Forall_delete.
  - intros fetch post. pose proof (tick_row_shape fetch post st) as H.
    destruct (check_and_post_incidents fetch post st) as [[st' tr] c]. simpl.
    intros k r' Hk'. specialize (H k).
    destruct (st !! k) as [r|] eqn:Hk; [|congruence].
    destruct H as [id H]. rewrite Hk' in H. injection H as ->.
    exact (Hok k r Hk).
Qed.

(** X4: toggling the same subscription twice gives back the table it
    started from, when the row's [enabled] is 0 or 1 (as X3 keeps it). *)
Theorem toggle_twice_restores_table (guild : Z) (service : string) (st : Store) :
  (forall r, st !! (guild, service) = Some r -> enabled r = 0%Z \/ enabled r = 1%Z) ->
  (toggle_webhook true guild service (toggle_webhook true guild service st).1).1 = st.
Proof.
  intros Hr. unfold toggle_webhook. simpl.
  destruct (st !! (guild, service)) as [r|] eqn:Hk; simpl; [|by rewrite Hk].
  unfold sql_update_enabled. rewrite lookup_alter_eq, Hk. simpl.
  apply map_eq. intros k. destruct (decide (k = (guild, service))) as [->|Hne].
  - rewrite !lookup_alter_eq, Hk. simpl. f_equal.
    destruct r as [c u p e m]. unfold set_enabled. simpl. f_equal.
    specialize (Hr _ eq_refl). simpl in Hr.
    unfold py_not_int. destruct Hr as [-> | ->]; reflexivity.
  - by rewrite !lookup_alter_ne.
Qed.

Lemma toggle_twice_restores_table_witness :
  (forall r, ({[(7%Z, "vercel") := mkRow 1 "u" None 0 None]} : Store) !! (7%Z, "vercel") = Some r ->
     enabled r = 0%Z \/ enabled r = 1%Z) /\
  (toggle_webhook true 7 "vercel"
     (toggle_webhook true 7 "vercel" {[(7%Z, "vercel") := mkRow 1 "u" None 0 None]}).1).1 =
  {[(7%Z, "vercel") := mkRow 1 "u" None 0 None]}.
Proof.
  assert (forall r, ({[(7%Z, "vercel") := mkRow 1 "u" None 0 None]} : Store) !! (7%Z, "vercel") = Some r ->
     enabled r = 0%Z \/ enabled r = 1%Z) as H.
  { intros r Hr. rewrite lookup_singleton_eq in Hr. injection Hr as <-. by left. }
  split; [exact H|]. exact (toggle_twice_restores_table 7 "vercel" _ H).
Defined.

(** X5: a poller tick neither adds nor deletes rows, and in a row it
    changes at most [last_incident_id]. *)
Theorem tick_changes_only_markers (fetch : string -> option Snapshot)
    (post : Key -> string -> Payload -> PostOutcome) (st : Store) :
  let '(st', _, _) := check_and_post_incidents fetch post st in
  forall k, match st !! k with
            | None => st' !! k = None
            | Some r => exists id, st' !! k = Some (set_last_incident r id)
            end.
Proof. exact (tick_row_shape fetch post st). Qed.

Lemma enabled_column_stays_boolean_witness :
  enabled_flags_ok ∅ /\
  ((forall manage guild channel service ping created,
      enabled_flags_ok (setup_webhook manage guild channel service ping created ∅).1) /\
   (forall manage guild service, enabled_flags_ok (toggle_webhook manage guild service ∅).1) /\
   (forall manage guild service, enabled_flags_ok (remove_webhook manage guild service ∅).1) /\
   (forall fetch post, enabled_flags_ok (check_and_post_incidents fetch post ∅).1.1)).
Proof.
  assert (enabled_flags_ok ∅) as H by apply map_Forall_empty.
  split; [exact H|]. exact (enabled_column_stays_boolean ∅ H).
Defined.

(** X6: when rendering the embed for a row raises (the only exception
    that escapes the loop body), the tick ends there: every row after it
    in the [SELECT] order is neither fetched nor posted nor updated. *)
Theorem tick_stops_at_embed_error (fetch : string -> option Snapshot)
    (post : Key -> string -> Payload -> PostOutcome) (st : Store)
    (pre suf : list (Key * Row)) (k : Key) (r : Row)
    (data : Snapshot) (latest : Incident) (older : list Incident) :
  select_enabled st = pre ++ (k, r) :: suf ->
  fetch (key_service k) = Some data ->
  snap_incidents data = latest :: older ->
  inc_id latest <> last_incident_id r ->
  create_status_embed (key_service k) data = None ->
  let '(st', tr, crashed) := check_and_post_incidents fetch post st in
  crashed = true /\ accepted_posts k tr = 0 /\
  Forall (fun kr => events_of kr.1 tr = [] /\ st' !! kr.1 = st !! kr.1) suf.
Proof.
  intros Hsel Hf Hi Hid He.
  pose proof (select_enabled_NoDup st) as Hnd. rewrite Hsel in Hnd.
  rewrite fmap_app, fmap_cons in Hnd. simpl in Hnd.
  apply NoDup_app in Hnd as (_ & Hdisj & Hnd2).
  apply NoDup_cons in Hnd2 as [Hk _].
  unfold check_and_post_incidents. rewrite Hsel, run_configs_app.
  assert (forall s, process_config fetch post (k, r) s = (s, [EvFetch k], true)) as Hp.
  { intros s. unfold process_config. simpl. rewrite Hf, Hi.
    rewrite decide_False by done. by rewrite He. }
  assert (forall k', k' ∈ suf.*1 -> (k' ∉ pre.*1) /\ k' <> k) as Hsuf.
  { intros k' Hin. split.
    - intros Hpre. apply (Hdisj k' Hpre). by right.
    - intros ->. by apply Hk. }
  assert (forall k', k' ∉ pre.*1 ->
            let '(s1, t1, _) := run_configs fetch post pre st in
            s1 !! k' = st !! k' /\ events_of k' t1 = []) as Hpre
    by (intros k' Hk'; exact (run_configs_absent fetch post pre st k' Hk')).
  destruct (run_configs fetch post pre st) as [[s1 t1] c1] eqn:Ep.
  assert (accepted_posts k t1 = 0) as Hacc.
  { assert (k ∉ pre.*1) as Hkp by (intros Hin; apply (Hdisj k Hin); by left).
    specialize (Hpre k Hkp). unfold accepted_posts. destruct Hpre as [_ ->]. done. }
  destruct c1.
  - split; [done|]. split; [done|].
    apply Forall_forall. intros [k' r'] Hin. simpl.
    assert (k' ∈ suf.*1) as Hin' by (apply list_elem_of_fmap; by exists (k', r')).
    destruct (Hsuf k' Hin') as [Hnp _]. specialize (Hpre k' Hnp). by destruct Hpre.
  - cbn [run_configs]. rewrite Hp. simpl.
    split; [done|]. split.
    + rewrite accepted_posts_app, Hacc. unfold accepted_posts, events_of. simpl.
      rewrite filter_cons_True by done. done.
    + apply Forall_forall. intros [k' r'] Hin. simpl.
      assert (k' ∈ suf.*1) as Hin' by (apply list_elem_of_fmap; by exists (k', r')).
      destruct (Hsuf k' Hin') as [Hnp Hne]. specialize (Hpre k' Hnp).
      destruct Hpre as [Hs Ht]. split; [|done].
      unfold events_of in *. rewrite filter_app, Ht. simpl.
      rewrite filter_cons_False by (simpl; congruence). done.
Qed.

Definition two_rows : Store :=
  <[(1%Z, "vercel") := mkRow 10 "u1" None 1 None]> {[(2%Z, "netlify") := mkRow 20 "u2" None 1 None]}.

(** An incident with an empty [incident_updates] list makes the embed raise. *)
Definition bare_incident : Incident := mkIncident (Some "a") (Some "Outage") (Some "investigating") (Some []).
Definition bare_snapshot : Snapshot := mkSnapshot (mkStatusObj "Minor" "minor") [bare_incident] [].
Definition fetch_bare (service : string) : option Snapshot := Some bare_snapshot.

Lemma tick_stops_at_embed_error_witness :
  (select_enabled two_rows = [] ++ ((1%Z, "vercel"), mkRow 10 "u1" None 1 None) ::
                                 [((2%Z, "netlify"), mkRow 20 "u2" None 1 None)] /\
   fetch_bare (key_service (1%Z, "vercel")) = Some bare_snapshot /\
   snap_incidents bare_snapshot = bare_incident :: [] /\
   inc_id bare_incident <> last_incident_id (mkRow 10 "u1" None 1 None) /\
   create_status_embed (key_service (1%Z, "vercel")) bare_snapshot = None) /\
  (let '(st', tr, crashed) := check_and_post_incidents fetch_bare (fun _ _ _ => PostStatus 204) two_rows in
   crashed = true /\ accepted_posts (1%Z, "vercel") tr = 0 /\
   Forall (fun kr => events_of kr.1 tr = [] /\ st' !! kr.1 = two_rows !! kr.1)
     [((2%Z, "netlify"), mkRow 20 "u2" None 1 None)]).
Proof.
  split.
  - split; [vm_compute; reflexivity|]. split; [reflexivity|]. split; [reflexivity|].
    split; [discriminate|]. vm_compute. reflexivity.
  - apply (tick_stops_at_embed_error fetch_bare (fun _ _ _ => PostStatus 204) two_rows
             [] [((2%Z, "netlify"), mkRow 20 "u2" None 1 None)] (1%Z, "vercel")
             (mkRow 10 "u1" None 1 None) bare_snapshot bare_incident []);
      [vm_compute; reflexivity|reflexivity|reflexivity|discriminate|vm_compute; reflexivity].
Defined.

(* ------------------------------------------------------------------ *)
(** ** When the renderer raises *)

Lemma incident_entry_None (inc : Incident) :
  incident_entry inc = None <-> inc_updates inc = Some [].
Proof.
  unfold incident_entry, latest_update.
  destruct (inc_updates inc) as [[|u us]|]; simpl; split; intros H; done.
Qed.

Lemma incidents_text_None (l : list Incident) (acc : string) :
  incidents_text l acc = None <-> exists inc, inc ∈ l /\ incident_entry inc = None.
Proof.
  revert acc; induction l as [|i l IH]; intros acc; simpl.
  - split; [done|]. intros (inc & Hin & _). by apply not_elem_of_nil in Hin.
  - destruct (incident_entry i) as [e|] eqn:Ei.
    + rewrite IH. split.
      * intros (inc & Hin & H). exists inc. split; [by right|done].
      * intros (inc & Hin & H). apply elem_of_cons in Hin as [->|Hin]; [congruence|].
        by exists inc.
    + split; [intros _; exists i; split; [by left|done]|done].
Qed.

Lemma component_entry_None (c : Component) :
  component_entry c = None <-> comp_name c = None \/ comp_status c = None.
Proof.
  unfold component_entry.
  destruct (comp_name c), (comp_status c); split; intros H; try done;
    try (by left); try (by right); by destruct H.
Qed.

Lemma components_text_None (l : list Component) (acc : string) :
  components_text l acc = None <->
  exists c, c ∈ l /\ (comp_name c = None \/ comp_status c = None).
Proof.
  revert acc; induction l as [|c l IH]; intros acc; simpl.
  - split; [done|]. intros (c & Hin & _). by apply not_elem_of_nil in Hin.
  - destruct (component_entry c) as [e|] eqn:Ec.
    + rewrite IH. split.
      * intros (c' & Hin & H). exists c'. split; [by right|done].
      * intros (c' & Hin & H). apply elem_of_cons in Hin as [->|Hin].
        -- apply component_entry_None in H. congruence.
        -- by exists c'.
    + split; [intros _; exists c; split; [by left|by apply component_entry_None]|done].
Qed.

(** X7: [create_status_embed] raises exactly when one of the (at most 3)
    incidents shown has an empty [incident_updates] list, or one of the
    (at most 5) components shown for not being operational lacks its
    [name] or [status]; absent incident fields and operational
    components never make it raise. *)
Theorem create_status_embed_raises_iff (service_name : string) (data : Snapshot) :
  create_status_embed service_name data = None <->
  (exists inc, inc ∈ firstn 3 (snap_incidents data) /\ inc_updates inc = Some []) \/
  (exists c, c ∈ firstn 5 (filter (fun c => negb (is_operational c)) (snap_components data)) /\
             (comp_name c = None \/ comp_status c = None)).
Proof.
  unfold create_status_embed.
  assert (forall inc, inc ∈ firstn 3 (snap_incidents data) /\ inc_updates inc = Some [] <->
                      inc ∈ firstn 3 (snap_incidents data) /\ incident_entry inc = None) as Hinc.
  { intros inc. by rewrite incident_entry_None. }
  setoid_rewrite Hinc. clear Hinc.
  rewrite <- (incidents_text_None _ ""), <- (components_text_None _ "").
  destruct (firstn 3 (snap_incidents data)) as [|i0 l0].
  - simpl. destruct (filter _ (snap_components data)) as [|c0 l1].
    + simpl. split; [done|]. intros [H|H]; discriminate.
    + destruct (components_text (firstn 5 (c0 :: l1)) "").
      * split; [done|]. intros [H|H]; discriminate.
      * split; [intros _; by right|done].
  - destruct (incidents_text (i0 :: l0) "").
    + destruct (filter _ (snap_components data)) as [|c0 l1].
      * simpl. split; [done|]. intros [H|H]; discriminate.
      * destruct (components_text (firstn 5 (c0 :: l1)) "").
        -- split; [done|]. intros [H|H]; discriminate.
        -- split; [intros _; by right|done].
    + simpl. split; [intros _; by left|done].
Qed.

(* ------------------------------------------------------------------ *)
(** ** [list_webhooks] *)

Lemma elem_of_select_guild (guild : Z) (st : Store) (k : Key) (r : Row) :
  (k, r) ∈ select_guild guild st <-> st !! k = Some r /\ key_guild k = guild.
Proof.
  unfold select_guild. rewrite list_elem_of_filter, elem_of_map_to_list. simpl. tauto.
Qed.

(** X8: [list_webhooks] answers "no webhooks" exactly when the guild has
    no row; otherwise it shows one field for each of the guild's rows,
    enabled or not, and nothing about other guilds' rows. *)
Theorem list_webhooks_shows_guild_rows (get_channel get_role : Z -> option string)
    (guild : Z) (st : Store) :
  (list_webhooks get_channel get_role guild st = ListNone <->
     forall service, st !! (guild, service) = None) /\
  (forall fields, list_webhooks get_channel get_role guild st = ListEmbed fields ->
     forall f, f ∈ fields <->
       exists service r, st !! (guild, service) = Some r /\
                         f = webhook_field get_channel get_role ((guild, service), r)).
Proof.
  unfold list_webhooks.
  destruct (select_guild guild st) as [|kr l] eqn:E.
  - split; [|done]. split; [|done]. intros _ service.
    destruct (st !! (guild, service)) as [r|] eqn:Hr; [|done].
    assert (((guild, service), r) ∈ select_guild guild st) as Hin
      by (by apply elem_of_select_guild).
    rewrite E in Hin. by apply not_elem_of_nil in Hin.
  - assert (forall k r, (k, r) ∈ kr :: l <-> st !! k = Some r /\ key_guild k = guild) as Hm
      by (intros k r; rewrite <- E; apply elem_of_select_guild).
    split.
    + split; [done|]. intros Hnone. destruct kr as [[g s] r].
      destruct (proj1 (Hm (g, s) r) ltac:(by left)) as [Hr Hg].
      simpl in Hg. subst g. by rewrite Hnone in Hr.
    + intros fields Hf f. injection Hf as <-.
      assert (forall x, x ∈ map (webhook_field get_channel get_role) (kr :: l) <->
                exists y, x = webhook_field get_channel get_role y /\ y ∈ kr :: l) as Hmap
        by (intros x; apply list_elem_of_fmap).
      rewrite Hmap. split.
      * intros ([[g s] r] & -> & Hin). apply Hm in Hin as [Hr Hg]. simpl in Hg. subst g.
        by exists s, r.
      * intros (s & r & Hr & ->). exists ((guild, s), r). split; [done|]. by apply Hm.
Qed.

(* ------------------------------------------------------------------ *)
(** ** Reading numbers: [int(s, 16)] in [send_embed], [int(s)] in [multi_send] *)

(** The digits of a non-negative [n] in base [b], most significant first
    and in lower case: what [format(n, 'x')] and [str(n)] write. *)
Definition digit_char (d : nat) : Ascii.ascii :=
  if d <? 10 then Ascii.ascii_of_nat (48 + d) else Ascii.ascii_of_nat (87 + d).

Fixpoint show_digits_go (fuel : nat) (b n : Z) (acc : string) : string :=
  match fuel with
  | O => acc
  | S f =>
      let acc' := String (digit_char (Z.to_nat (n mod b))) acc in
      if (n <? b)%Z then acc' else show_digits_go f b (n / b) acc'
  end.

Definition show_digits (b n : Z) : string := show_digits_go (S (Z.to_nat n)) b n "".

(** [sep.join(l)] *)
Fixpoint py_join (sep : string) (l : list string) : string :=
  match l with
  | [] => ""
  | [x] => x
  | x :: rest => x +:+ sep +:+ py_join sep rest
  end.

(** [s.count(',')] *)
Fixpoint count_commas (s : string) : nat :=
  match s with
  | EmptyString => 0
  | String c s' => (if Ascii.nat_of_ascii c =? 44 then 1 else 0) + count_commas s'
  end.

Fixpoint digits_only (base : nat) (s : string) : bool :=
  match s with
  | EmptyString => true
  | String c s' => (digit_value c <? base) && digits_only base s'
  end.

Lemma digit_char_value (d : nat) : d < 36 -> digit_value (digit_char d) = d.
Proof.
  intros Hd.
  assert (forallb (fun d => digit_value (digit_char d) =? d) (seq 0 36) = true) as H
    by (vm_compute; reflexivity).
  rewrite forallb_forall in H. apply Nat.eqb_eq, H.
  apply in_seq. lia.
Qed.

Lemma hex_char_code (c : Ascii.ascii) :
  digit_value c < 16 ->
  let n := Ascii.nat_of_ascii c in
  (48 <= n <= 57) \/ (97 <= n <= 102) \/ (65 <= n <= 70).
Proof.
  intros Hd. cbv zeta. unfold digit_value in Hd. cbv zeta in Hd.
  set (n := Ascii.nat_of_ascii c) in *.
  destruct (Nat.leb_spec 48 n), (Nat.leb_spec n 57), (Nat.leb_spec 97 n),
    (Nat.leb_spec n 122), (Nat.leb_spec 65 n), (Nat.leb_spec n 90); simpl in Hd; lia.
Qed.

Lemma hex_char_facts (c : Ascii.ascii) :
  digit_value c < 16 ->
  is_underscore c = false /\ py_isspace c = false /\
  (Ascii.nat_of_ascii c =? 43) = false /\ (Ascii.nat_of_ascii c =? 45) = false /\
  (Ascii.nat_of_ascii c =? 44) = false /\ (Ascii.nat_of_ascii c =? 35) = false /\
  (Ascii.nat_of_ascii c =? 120) = false /\ (Ascii.nat_of_ascii c =? 88) = false.
Proof.
  intros Hd. pose proof (hex_char_code c Hd) as Hn. simpl in Hn.
  unfold is_underscore, py_isspace.
  set (n := Ascii.nat_of_ascii c) in *.
  repeat split; repeat match goal with
                       | |- context [?a =? ?b] => destruct (Nat.eqb_spec a b)
                       | |- context [?a <=? ?b] => destruct (Nat.leb_spec a b)
                       end; simpl; lia.
Qed.

Lemma string_length_app (a b : string) : String.length (a +:+ b) = String.length a + String.length b.
Proof. induction a as [|c a IH]; [done|]. rewrite string_app_cons. simpl. by rewrite IH. Qed.

Lemma digits_only_app (b : nat) (s1 s2 : string) :
  digits_only b (s1 +:+ s2) = digits_only b s1 && digits_only b s2.
Proof.
  induction s1 as [|c s1 IH]; [done|]. rewrite string_app_cons. simpl.
  rewrite IH. by rewrite andb_assoc.
Qed.

Lemma digits_value_app (b acc : Z) (s1 s2 : string) :
  digits_value b acc (s1 +:+ s2) = digits_value b (digits_value b acc s1) s2.
Proof.
  revert acc; induction s1 as [|c s1 IH]; intros acc; [done|].
  rewrite string_app_cons. simpl. destruct (is_underscore c); apply IH.
Qed.

Section HexDigits.
Variable base : nat.
Hypothesis base_le_16 : base <= 16.

Lemma digits_only_char (c : Ascii.ascii) (s : string) :
  digits_only base (String c s) = true -> digit_value c < 16 /\ digits_only base s = true.
Proof. simpl. intros H. apply andb_prop in H as [H1 H2]. apply Nat.ltb_lt in H1. split; [lia|done]. Qed.

Lemma span_digits_only (s : string) : digits_only base s = true -> span_digits base s = (s, "").
Proof.
  induction s as [|c s IH]; intros H; [done|]. simpl in *.
  apply andb_prop in H as [H1 H2]. rewrite H1. simpl. by rewrite IH.
Qed.

Lemma digits_only_shape (s : string) :
  digits_only base s = true ->
  underscores_ok false s = true /\ n_digits s = String.length s /\
  lstrip s = s /\ rstrip s = s /\ strip_sign s = (1%Z, s) /\
  strip_base_prefix base s = s /\ starts_with_underscore s = false /\
  count_commas s = 0.
Proof.
  induction s as [|c s IH]; intros H; [done|].
  apply digits_only_char in H as [Hc Hs].
  destruct (hex_char_facts c Hc) as (Hu & Hsp & H43 & H45 & H44 & _ & Hx & HX).
  destruct (IH Hs) as (IH1 & IH2 & IH3 & IH4 & IH5 & IH6 & IH7 & IH8).
  split; [simpl; by rewrite Hu|]. split; [simpl; by rewrite Hu, IH2|].
  split; [simpl; by rewrite Hsp|]. split; [simpl; by rewrite IH4, Hsp|].
  split; [simpl; by rewrite H43, H45|].
  split.
  { simpl. destruct s as [|c1 s']; [done|].
    apply digits_only_char in Hs as [Hc1 _].
    destruct (hex_char_facts c1 Hc1) as (_ & _ & _ & _ & _ & _ & Hx1 & HX1).
    by rewrite Hx1, HX1, !andb_false_r. }
  split; [simpl; by rewrite Hu|]. simpl. by rewrite H44, IH8.
Qed.

(** [int(s, base)] of a non-empty run of digits is its value. *)
Lemma py_int_digits (s : string) :
  digits_only base s = true -> s <> "" ->
  ((base =? 10) && (4300 <? String.length s) = false) ->
  py_int base s = Some (digits_value (Z.of_nat base) 0 s).
Proof.
  intros H Hne Hlim. destruct (digits_only_shape s H) as (H1 & H2 & H3 & _ & H5 & H6 & H7 & _).
  unfold py_int. rewrite H3, H5. cbn beta iota. rewrite H6, H7. cbn iota.
  rewrite (span_digits_only s H). cbn iota. rewrite H1, H2, Hlim.
  destruct s as [|c s']; [done|]. cbn. f_equal. lia.
Qed.

Lemma show_digits_go_app (f : nat) (b n : Z) (acc : string) :
  show_digits_go f b n acc = show_digits_go f b n "" +:+ acc.
Proof.
  revert n acc; induction f as [|f IH]; intros n acc; [done|]. simpl.
  destruct (n <? b)%Z; [done|].
  rewrite IH, (IH _ (String _ "")), string_app_assoc. done.
Qed.

Lemma show_digits_go_spec (f : nat) (n : Z) :
  (2 <= Z.of_nat base)%Z -> (0 <= n)%Z -> (Z.to_nat n < f)%nat ->
  let s := show_digits_go f (Z.of_nat base) n "" in
  digits_only base s = true /\ s <> "" /\ digits_value (Z.of_nat base) 0 s = n.
Proof.
  intros Hb. revert n; induction f as [|f IH]; intros n Hn Hf; [lia|].
  cbn [show_digits_go].
  set (d := Z.to_nat (n mod Z.of_nat base)).
  assert (d < base) as Hd.
  { unfold d. pose proof (Z.mod_pos_bound n (Z.of_nat base) ltac:(lia)). lia. }
  assert (digit_value (digit_char d) = d) as Hdv by (apply digit_char_value; lia).
  assert (is_underscore (digit_char d) = false) as Hu
    by (apply hex_char_facts; rewrite Hdv; lia).
  assert (Z.of_nat d = n mod Z.of_nat base)%Z as Hzd
    by (unfold d; rewrite Z2Nat.id; [done|apply Z.mod_pos_bound; lia]).
  pose proof (Z.div_mod n (Z.of_nat base) ltac:(lia)) as Hdm.
  assert (digits_only base (String (digit_char d) "") = true) as Hdo
    by (cbn [digits_only]; rewrite Hdv, andb_true_r; apply Nat.ltb_lt; lia).
  destruct (Z.ltb_spec n (Z.of_nat base)) as [Hlt|Hge].
  - split; [exact Hdo|]. split; [done|].
    cbn [digits_value]. rewrite Hu, Hdv, Hzd, Z.mod_small by lia. lia.
  - rewrite show_digits_go_app.
    assert (0 <= n / Z.of_nat base < n)%Z as Hq.
    { split; [apply Z.div_pos; lia|apply Z.div_lt; lia]. }
    destruct (IH (n / Z.of_nat base)%Z ltac:(lia) ltac:(lia)) as (IH1 & IH2 & IH3).
    split; [rewrite digits_only_app, IH1; exact Hdo|].
    split.
    + destruct (show_digits_go f (Z.of_nat base) (n / Z.of_nat base)%Z ""); done.
    + rewrite digits_value_app, IH3. cbn [digits_value]. rewrite Hu, Hdv, Hzd. lia.
Qed.

Lemma show_digits_spec (n : Z) :
  (2 <= Z.of_nat base)%Z -> (0 <= n)%Z ->
  digits_only base (show_digits (Z.of_nat base) n) = true /\
  show_digits (Z.of_nat base) n <> "" /\
  digits_value (Z.of_nat base) 0 (show_digits (Z.of_nat base) n) = n.
Proof. intros Hb Hn. apply show_digits_go_spec; [done|done|lia]. Qed.

Lemma show_digits_go_length (f : nat) (k : nat) (n : Z) :
  (2 <= Z.of_nat base)%Z -> (0 <= n < Z.of_nat base ^ Z.of_nat (S k))%Z ->
  String.length (show_digits_go f (Z.of_nat base) n "") <= S k.
Proof.
  intros Hb. revert n k; induction f as [|f IH]; intros n k Hn; simpl; [lia|].
  destruct (Z.ltb_spec n (Z.of_nat base)) as [Hlt|Hge]; [simpl; lia|].
  rewrite show_digits_go_app, string_length_app. simpl.
  destruct k as [|k].
  - rewrite Nat2Z.inj_succ, Z.pow_succ_r, Z.pow_0_r in Hn by lia. lia.
  - assert (0 <= n / Z.of_nat base < Z.of_nat base ^ Z.of_nat (S k))%Z as Hq.
    { split; [apply Z.div_pos; lia|].
      apply Z.div_lt_upper_bound; [lia|].
      rewrite <- Z.pow_succ_r by lia. rewrite <- Nat2Z.inj_succ. lia. }
    specialize (IH _ _ Hq). lia.
Qed.
End HexDigits.

Lemma py_int_hex_after (t : string) (sign : Z) (u s : string) :
  strip_sign (lstrip t) = (sign, u) -> strip_base_prefix 16 u = s ->
  digits_only 16 s = true -> s <> "" ->
  py_int 16 t = Some (sign * digits_value 16 0 s)%Z.
Proof.
  intros H1 H2 Hd Hne.
  destruct (digits_only_shape 16 ltac:(lia) s Hd) as (Hu & Hn & _ & _ & _ & _ & Hsw & _).
  unfold py_int. rewrite H1. cbn iota beta. rewrite H2, Hsw. cbn iota.
  rewrite (span_digits_only 16 s Hd). cbn iota. rewrite Hu, Hn.
  destruct s; [done|]. reflexivity.
Qed.

Lemma parse_color_digits (s : string) :
  digits_only 16 s = true -> s <> "" -> parse_color (Some s) = py_int 16 s.
Proof.
  destruct s as [|c s']; [done|]. intros Hd _.
  destruct (digits_only_char 16 ltac:(lia) c s' Hd) as [Hc Hs'].
  destruct (hex_char_facts c Hc) as (_ & _ & _ & _ & _ & H35 & _ & _).
  unfold parse_color.
  assert (String.eqb (String c s') "" = false) as -> by reflexivity.
  assert (String.prefix "0x" (String c s') = false) as ->.
  { cbn [String.prefix]. match goal with |- context [Ascii.ascii_dec ?a ?b] => destruct (Ascii.ascii_dec a b) as [Heq|] end; [|done]. subst c.
    destruct s' as [|c2 s'']; [done|]. cbn [String.prefix].
    match goal with |- context [Ascii.ascii_dec ?a ?b] => destruct (Ascii.ascii_dec a b) as [Heq|] end; [|done]. subst c2.
    destruct (digits_only_char 16 ltac:(lia) _ s'' Hs') as [Hc2 _].
    destruct (hex_char_facts _ Hc2) as (_ & _ & _ & _ & _ & _ & Hx & _). discriminate Hx. }
  assert (String.prefix "#" (String c s') = false) as ->.
  { cbn [String.prefix]. match goal with |- context [Ascii.ascii_dec ?a ?b] => destruct (Ascii.ascii_dec a b) as [Heq|] end; [|done]. subst c. discriminate H35. }
  reflexivity.
Qed.

(** X9: the [color] option of [sendembed] reads a non-negative number
    written in hex digits to its value whether it is given bare, after
    [#] or after [0x]; a leading [-] gives the negative value, and no
    range is enforced on the result. *)
Theorem parse_color_reads_hex (n : Z) :
  (0 <= n)%Z ->
  parse_color (Some (show_digits 16 n)) = Some n /\
  parse_color (Some ("#" +:+ show_digits 16 n)) = Some n /\
  parse_color (Some ("0x" +:+ show_digits 16 n)) = Some n /\
  parse_color (Some ("-" +:+ show_digits 16 n)) = Some (- n)%Z.
Proof.
  intros Hn.
  pose proof (show_digits_spec 16 ltac:(lia) n ltac:(lia) Hn) as (Hd & Hne & Hv).
  change (Z.of_nat 16) with 16%Z in Hd, Hne, Hv.
  set (s := show_digits 16 n) in *.
  destruct (digits_only_shape 16 ltac:(lia) s Hd) as (_ & _ & Hl & _ & Hsg & Hpre & Hsw & _).
  clearbody s.
  split; [|split; [|split]].
  - rewrite parse_color_digits by done.
    rewrite (py_int_hex_after s 1 s s); [rewrite Hv; f_equal; lia|by rewrite Hl, Hsg|done|done|done].
  - assert (parse_color (Some ("#" +:+ s)) = py_int 16 s) as -> by (destruct s; [done|reflexivity]).
    rewrite (py_int_hex_after s 1 s s); [rewrite Hv; f_equal; lia|by rewrite Hl, Hsg|done|done|done].
  - assert (parse_color (Some ("0x" +:+ s)) = py_int 16 ("0x" +:+ s)) as ->
      by (destruct s; [done|reflexivity]).
    rewrite (py_int_hex_after _ 1 ("0x" +:+ s) s);
      [rewrite Hv; f_equal; lia|reflexivity| |done|done].
    destruct s as [|c s']; [done|].
    destruct (hex_char_facts c (proj1 (digits_only_char 16 ltac:(lia) c s' Hd))) as (Hu & _).
    transitivity (if is_underscore c then s' else String c s'); [reflexivity|]. by rewrite Hu.
  - assert (parse_color (Some ("-" +:+ s)) = py_int 16 ("-" +:+ s)) as -> by reflexivity.
    rewrite (py_int_hex_after _ (-1) s s); [rewrite Hv; f_equal; lia|reflexivity|done|done|done].
Qed.

(** A colour above [0xffffff], the largest the chat platform displays. *)
Lemma parse_color_reads_hex_witness :
  (0 <= 0x1000000)%Z /\
  (parse_color (Some (show_digits 16 0x1000000)) = Some 0x1000000%Z /\
   parse_color (Some ("#" +:+ show_digits 16 0x1000000)) = Some 0x1000000%Z /\
   parse_color (Some ("0x" +:+ show_digits 16 0x1000000)) = Some 0x1000000%Z /\
   parse_color (Some ("-" +:+ show_digits 16 0x1000000)) = Some (- 0x1000000)%Z).
Proof. split; [lia|]. apply parse_color_reads_hex. lia. Defined.

(** [s.split(',')] of comma-free text followed by more text. *)
Lemma py_split_comma_nonempty (s : string) : exists h t, py_split_comma s = h :: t.
Proof.
  destruct s as [|c s']; [by eexists _, _|]. simpl.
  destruct (Ascii.nat_of_ascii c =? 44); [by eexists _, _|].
  destruct (py_split_comma s') as [|r rs]; by eexists _, _.
Qed.

Lemma py_split_comma_app (p s : string) (h : string) (t : list string) :
  count_commas p = 0 -> py_split_comma s = h :: t -> py_split_comma (p +:+ s) = (p +:+ h) :: t.
Proof.
  induction p as [|c p IH]; intros Hp Hs; [by rewrite !string_app_nil_l|].
  rewrite !string_app_cons. simpl in Hp |- *.
  destruct (Ascii.nat_of_ascii c =? 44); [done|]. by rewrite IH.
Qed.

Lemma py_split_comma_join (p : string) (ps : list string) :
  Forall (fun q => count_commas q = 0) (p :: ps) ->
  py_split_comma (py_join ", " (p :: ps)) = p :: map (fun q => " " +:+ q) ps.
Proof.
  revert p; induction ps as [|q ps IH]; intros p Hall.
  - simpl. apply Forall_cons in Hall as [Hp _].
    rewrite <- (string_app_nil_r p) at 1.
    rewrite (py_split_comma_app p "" "" []); [by rewrite string_app_nil_r|done|done].
  - apply Forall_cons in Hall as [Hp Hall].
    change (py_join ", " (p :: q :: ps)) with (p +:+ ", " +:+ py_join ", " (q :: ps)).
    assert (py_split_comma (", " +:+ py_join ", " (q :: ps)) =
              "" :: (" " +:+ q) :: map (fun q => " " +:+ q) ps) as Hs.
    { assert (forall y, py_split_comma (", " +:+ y) = "" :: py_split_comma (" " +:+ y)) as ->
        by (intros; reflexivity).
      f_equal. apply (py_split_comma_app " " _ q); [done|]. exact (IH q Hall). }
    rewrite (py_split_comma_app p _ "" _ Hp Hs). by rewrite string_app_nil_r.
Qed.

Lemma show_digits_10 (z : Z) :
  (0 <= z < 10 ^ 4300)%Z ->
  count_commas (show_digits 10 z) = 0 /\
  py_int 10 (py_strip (show_digits 10 z)) = Some z /\
  py_int 10 (py_strip (" " +:+ show_digits 10 z)) = Some z.
Proof.
  intros Hz.
  pose proof (show_digits_spec 10 ltac:(lia) z ltac:(lia) ltac:(lia)) as (Hd & Hne & Hv).
  change (Z.of_nat 10) with 10%Z in Hd, Hne, Hv.
  assert (String.length (show_digits 10 z) <= 4300) as Hlen.
  { apply (show_digits_go_length 10 ltac:(lia) _ 4299 z ltac:(lia)). simpl. lia. }
  set (s := show_digits 10 z) in *.
  destruct (digits_only_shape 10 ltac:(lia) s Hd) as (_ & _ & Hl & Hr & _ & _ & _ & Hc).
  assert (py_int 10 s = Some z) as Hp.
  { rewrite (py_int_digits 10 ltac:(lia) s Hd Hne); [change (Z.of_nat 10) with 10%Z; by rewrite Hv|].
    apply andb_false_intro2, Nat.ltb_ge; lia. }
  split; [done|]. unfold py_strip. rewrite Hl, Hr. split; [done|].
  change (lstrip (" " +:+ s)) with (lstrip s). by rewrite Hl, Hr.
Qed.

(** X10: [multisend] reads back any non-empty list of non-negative
    server ids written in decimal and joined with [", "]: the spaces are
    stripped and the ids come out in order. *)
Theorem parse_server_ids_round_trip (ids : list Z) :
  ids <> [] -> Forall (fun z => 0 <= z < 10 ^ 4300)%Z ids ->
  parse_server_ids (py_join ", " (map (show_digits 10) ids)) = Some ids.
Proof.
  destruct ids as [|z zs]; [done|]. intros _ Hall.
  assert (Forall (fun q => count_commas q = 0) (map (show_digits 10) (z :: zs))) as Hc.
  { apply Forall_map, (Forall_impl _ _ _ Hall). intros y Hy. apply (show_digits_10 y Hy). }
  unfold parse_server_ids. simpl map. rewrite py_split_comma_join by done.
  apply mapM_Some. constructor.
  - apply Forall_cons in Hall as [Hz _]. apply (show_digits_10 z Hz).
  - apply Forall_cons in Hall as [_ Hall]. clear Hc.
    induction zs as [|y ys IH]; [constructor|]. apply Forall_cons in Hall as [Hy Hall].
    constructor; [apply (show_digits_10 y Hy)|]. by apply IH.
Qed.

Lemma parse_server_ids_round_trip_witness :
  ([123456789%Z; 987654321%Z] <> [] /\
   Forall (fun z => 0 <= z < 10 ^ 4300)%Z [123456789%Z; 987654321%Z]) /\
  parse_server_ids (py_join ", " (map (show_digits 10) [123456789%Z; 987654321%Z])) =
    Some [123456789%Z; 987654321%Z].
Proof.
  assert (Forall (fun z => 0 <= z < 10 ^ 4300)%Z [123456789%Z; 987654321%Z]) as H.
  { repeat constructor; vm_compute; discriminate. }
  split; [split; [discriminate|exact H]|].
  apply parse_server_ids_round_trip; [discriminate|exact H].
Defined.

Lemma py_split_comma_length (s : string) :
  length (py_split_comma s) = S (count_commas s).
Proof.
  induction s as [|c s IH]; [done|]. cbn [py_split_comma count_commas].
  destruct (Ascii.nat_of_ascii c =? 44); [simpl; lia|].
  destruct (py_split_comma s); simpl in *; lia.
Qed.

Lemma py_split_comma_trailing (s : string) :
  exists h l, py_split_comma (s +:+ ",") = h :: l ++ [""].
Proof.
  induction s as [|c s IH]; [by exists "", []|].
  destruct IH as (h & l & IH). rewrite string_app_cons. cbn [py_split_comma].
  rewrite IH. destruct (Ascii.nat_of_ascii c =? 44).
  - by exists "", (h :: l).
  - by exists (String c h), l.
Qed.

Lemma mapM_Some_elem {A B} (f : A -> option B) (l : list A) (k : list B) (x : A) :
  mapM f l = Some k -> In x l -> exists y, f x = Some y.
Proof.
  revert k; induction l as [|a l IH]; intros k Hm Hx; [done|].
  simpl in Hm. destruct (f a) as [b|] eqn:Ha; [|done]. simpl in Hm.
  destruct (mapM f l) as [k'|] eqn:Hl; [|done].
  destruct Hx as [<-|Hx]; [by exists b|]. by apply (IH k').
Qed.

(** X11: the id list of [multisend] is refused as soon as one of its
    comma-separated pieces is empty, so a leading or a trailing comma
    makes the whole command fail; when it is accepted, there is one id
    per piece, one more than the number of commas. *)
Theorem parse_server_ids_pieces (s : string) :
  parse_server_ids ("," +:+ s) = None /\
  parse_server_ids (s +:+ ",") = None /\
  (forall ids, parse_server_ids s = Some ids -> length ids = S (count_commas s)).
Proof.
  assert (forall t, In "" (py_split_comma t) -> parse_server_ids t = None) as Hempty.
  { intros t Ht. unfold parse_server_ids.
    destruct (mapM _ (py_split_comma t)) as [k|] eqn:Hm; [|done].
    destruct (mapM_Some_elem _ _ _ _ Hm Ht) as [y Hy]. discriminate Hy. }
  split; [|split].
  - apply Hempty. change (py_split_comma ("," +:+ s)) with ("" :: py_split_comma s). by left.
  - apply Hempty. destruct (py_split_comma_trailing s) as (h & l & ->).
    right. apply in_or_app. right. by left.
  - intros ids Hs. unfold parse_server_ids in Hs. apply mapM_Some in Hs.
    rewrite <- (Forall2_length _ _ _ Hs). apply py_split_comma_length.
Qed.

(* ------------------------------------------------------------------ *)
(** ** Bulk sending: counts and stopping point *)

Definition is_send_ok (o : SendOutcome) : bool :=
  match o with SendOk => true | _ => false end.

(** The sends of an embed trace, with everything each one carries. *)
Definition embed_sends (tr : list EmbedEvent) : list (nat * string * string * Z * string) :=
  omap (fun e => match e with ESend i t d c ft => Some (i, t, d, c, ft) | ESleep _ => None end) tr.

Lemma attempts_send_pause (i : nat) (m : string) (b : bool) (d : Q) (tr : list ChanEvent) :
  attempts (ChSend i m :: (if b then [ChSleep d] else []) ++ tr) = i :: attempts tr.
Proof. by destruct b. Qed.

Lemma embed_sends_pause (ev : EmbedEvent) (b : bool) (d : Q) (tr : list EmbedEvent) :
  embed_sends (ev :: (if b then [ESleep d] else []) ++ tr) = embed_sends (ev :: tr).
Proof. by destruct b. Qed.

Lemma embed_sends_send (i : nat) (t d : string) (c : Z) (ft : string) (tr : list EmbedEvent) :
  embed_sends (ESend i t d c ft :: tr) = (i, t, d, c, ft) :: embed_sends tr.
Proof. done. Qed.

Lemma filter_seq_cons (p : nat -> bool) (i k : nat) :
  List.filter p (seq i (S k)) = (if p i then [i] else []) ++ List.filter p (seq (S i) k).
Proof. simpl. by destruct (p i). Qed.

Section LoopShape.
Variable send : nat -> SendOutcome.

(** What a [for i in range(count)] loop that breaks on [Forbidden] did,
    given its number [k] of attempts from index [i]. *)
Definition stops_well (i n k : nat) (s0 f0 s f : Z) : Prop :=
  (k <= n)%nat /\
  s = (s0 + Z.of_nat (length (List.filter (fun j => is_send_ok (send j)) (seq i k))))%Z /\
  (s + f = s0 + f0 + Z.of_nat k)%Z /\
  (forall j, (j < k)%nat -> send (i + j) = SendForbidden -> S j = k) /\
  ((k < n)%nat -> exists j, k = S j /\ send (i + j) = SendForbidden).

Lemma stops_well_step (i n k : nat) (s0 f0 s f : Z) (ok : Z) :
  send i <> SendForbidden -> ok = (if is_send_ok (send i) then 1 else 0)%Z ->
  stops_well (S i) n k (s0 + ok) (f0 + (1 - ok)) s f ->
  stops_well i (S n) (S k) s0 f0 s f.
Proof.
  intros Hi Hok (Hk & Hs & Hsf & Hfb & Hlast). split; [lia|]. split.
  { rewrite Hs, filter_seq_cons, length_app. destruct (is_send_ok (send i)); simpl; lia. }
  split; [destruct (is_send_ok (send i)); lia|]. split.
  - intros [|j] Hj Hf; [by rewrite Nat.add_0_r in Hf|].
    rewrite <- Nat.add_succ_comm in Hf. f_equal. apply Hfb; [lia|done].
  - intros Hlt. destruct (Hlast ltac:(lia)) as (j & -> & Hj).
    exists (S j). split; [done|]. by rewrite <- Nat.add_succ_comm.
Qed.

Lemma stops_well_forbidden (i n : nat) (s0 f0 : Z) :
  send i = SendForbidden -> stops_well i (S n) 1 s0 f0 s0 (f0 + 1).
Proof.
  intros Hi. split; [lia|]. split; [simpl; rewrite Hi; simpl; lia|]. split; [lia|]. split.
  - intros j Hj _. lia.
  - intros _. exists 0%nat. by rewrite Nat.add_0_r.
Qed.

Lemma send_loop_shape (message : string) (count : Z) (delay : Q) (n i : nat) (s0 f0 : Z) :
  let '(tr, s, f) := send_loop send message count delay i n s0 f0 in
  exists k, attempts tr = seq i k /\ stops_well i n k s0 f0 s f.
Proof.
  revert i s0 f0; induction n as [|n IH]; intros i s0 f0.
  - exists 0%nat. split; [done|]. split; [lia|]. split; [simpl; lia|]. split; [lia|].
    split; [lia|]. lia.
  - cbn [send_loop]. destruct (send i) as [| |code|] eqn:Hi.
    + specialize (IH (S i) (s0 + 1)%Z f0).
      destruct (send_loop send message count delay (S i) n _ _) as [[tr s] f].
      destruct IH as (k & Ha & Hw). exists (S k).
      rewrite attempts_send_pause, Ha. split; [done|].
      apply (stops_well_step _ _ _ _ _ _ _ 1); [by rewrite Hi|by rewrite Hi|].
      by replace (f0 + (1 - 1))%Z with f0 by lia.
    + exists 1%nat. split; [done|]. by apply stops_well_forbidden.
    + specialize (IH (S i) s0 (f0 + 1)%Z).
      destruct (send_loop send message count delay (S i) n _ _) as [[tr s] f].
      destruct IH as (k & Ha & Hw). exists (S k).
      rewrite attempts_send_pause, Ha. split; [done|].
      apply (stops_well_step _ _ _ _ _ _ _ 0); [by rewrite Hi|by rewrite Hi|].
      by replace (s0 + 0)%Z with s0 by lia.
    + specialize (IH (S i) s0 (f0 + 1)%Z).
      destruct (send_loop send message count delay (S i) n _ _) as [[tr s] f].
      destruct IH as (k & Ha & Hw). exists (S k).
      change (attempts (ChSend i message :: tr)) with (i :: attempts tr). rewrite Ha. split; [done|].
      apply (stops_well_step _ _ _ _ _ _ _ 0); [by rewrite Hi|by rewrite Hi|].
      by replace (s0 + 0)%Z with s0 by lia.
Qed.

Lemma embed_loop_shape (title description : string) (c count : Z) (delay : Q) (n i : nat) (s0 f0 : Z) :
  let '(tr, s, f) := embed_loop send title description c count delay i n s0 f0 in
  exists k, embed_sends tr =
              map (fun j => (j, title, description, c, embed_footer_text count j)) (seq i k) /\
            stops_well i n k s0 f0 s f.
Proof.
  revert i s0 f0; induction n as [|n IH]; intros i s0 f0.
  - exists 0%nat. split; [done|]. split; [lia|]. split; [simpl; lia|]. split; [lia|].
    split; [lia|]. lia.
  - cbn [embed_loop]. destruct (send i) as [| |code|] eqn:Hi.
    + specialize (IH (S i) (s0 + 1)%Z f0).
      destruct (embed_loop send title description c count delay (S i) n _ _) as [[tr s] f].
      destruct IH as (k & Ha & Hw). exists (S k).
      rewrite embed_sends_pause. rewrite embed_sends_send, Ha. split; [done|].
      apply (stops_well_step _ _ _ _ _ _ _ 1); [by rewrite Hi|by rewrite Hi|].
      by replace (f0 + (1 - 1))%Z with f0 by lia.
    + exists 1%nat. split; [done|]. by apply stops_well_forbidden.
    + specialize (IH (S i) s0 (f0 + 1)%Z).
      destruct (embed_loop send title description c count delay (S i) n _ _) as [[tr s] f].
      destruct IH as (k & Ha & Hw). exists (S k).
      rewrite embed_sends_pause. rewrite embed_sends_send, Ha. split; [done|].
      apply (stops_well_step _ _ _ _ _ _ _ 0); [by rewrite Hi|by rewrite Hi|].
      by replace (s0 + 0)%Z with s0 by lia.
    + specialize (IH (S i) s0 (f0 + 1)%Z).
      destruct (embed_loop send title description c count delay (S i) n _ _) as [[tr s] f].
      destruct IH as (k & Ha & Hw). exists (S k).
      rewrite embed_sends_send, Ha. split; [done|].
      apply (stops_well_step _ _ _ _ _ _ _ 0); [by rewrite Hi|by rewrite Hi|].
      by replace (s0 + 0)%Z with s0 by lia.
Qed.
End LoopShape.

Definition refuse_third (j : nat) : SendOutcome :=
  if (j =? 2)%nat then SendForbidden else SendOk.

(** X12: once its checks pass, [sendmessage] attempts the sends
    0, 1, ..., k-1 for some k <= count, in order; it stops early only
    right after a send raising [discord.Forbidden], and no earlier send
    raised it; every attempt is counted once, as sent when it succeeded
    and as failed otherwise. *)
Theorem send_message_attempts_and_totals (send : nat -> SendOutcome) (message : string)
    (count : Z) (delay : Q) :
  (1 <= count <= 50)%Z -> (0 <= delay)%Q ->
  let '(tr, reply) := send_message send message count delay in
  exists k sent failed,
    reply = ReplySent sent count failed (Qeq_bool delay 0 && (1 <? count)%Z) /\
    attempts tr = seq 0 k /\ (k <= Z.to_nat count)%nat /\
    sent = Z.of_nat (length (List.filter (fun j => is_send_ok (send j)) (seq 0 k))) /\
    (sent + failed)%Z = Z.of_nat k /\
    (forall j, (j < k)%nat -> send j = SendForbidden -> S j = k) /\
    ((k < Z.to_nat count)%nat -> exists j, k = S j /\ send j = SendForbidden).
Proof.
  intros Hc Hd. unfold send_message.
  destruct (Z.ltb_spec count 1); [lia|]. destruct (Z.ltb_spec 50 count); [lia|].
  apply Qle_bool_iff in Hd. rewrite Hd. cbn [orb negb].
  pose proof (send_loop_shape send message count delay (Z.to_nat count) 0 0 0) as Hshape.
  destruct (send_loop send message count delay 0 (Z.to_nat count) 0 0) as [[tr s] f].
  destruct Hshape as (k & Ha & Hk & Hs & Hsf & Hfb & Hl).
  exists k, s, f. split; [done|]. split; [done|]. split; [done|]. split; [done|].
  split; [lia|]. split; [exact Hfb|exact Hl].
Qed.

Lemma send_message_attempts_and_totals_witness :
  ((1 <= 5 <= 50)%Z /\ (0 <= 0)%Q) /\
  let '(tr, reply) := send_message refuse_third "hello" 5 0 in
  exists k sent failed,
    reply = ReplySent sent 5 failed (Qeq_bool 0 0 && (1 <? 5)%Z) /\
    attempts tr = seq 0 k /\ (k <= Z.to_nat 5)%nat /\
    sent = Z.of_nat (length (List.filter (fun j => is_send_ok (refuse_third j)) (seq 0 k))) /\
    (sent + failed)%Z = Z.of_nat k /\
    (forall j, (j < k)%nat -> refuse_third j = SendForbidden -> S j = k) /\
    ((k < Z.to_nat 5)%nat -> exists j, k = S j /\ refuse_third j = SendForbidden).
Proof.
  split; [split; [lia|vm_compute; discriminate]|].
  apply send_message_attempts_and_totals; [lia|vm_compute; discriminate].
Defined.

(** X13: [sendembed] refuses a colour that does not parse before sending
    anything; otherwise every embed it sends carries the parsed colour,
    the given title and description and the footer of its index, the
    indices are 0, 1, ..., k-1 with k <= count, it stops early only
    right after a [discord.Forbidden], and sent plus failed is k. *)
Theorem send_embed_uses_parsed_color (esend : nat -> SendOutcome) (title description : string)
    (color : option string) (count : Z) (delay : Q) :
  (1 <= count <= 50)%Z -> (0 <= delay)%Q ->
  let '(tr, reply) := send_embed esend title description color count delay in
  match parse_color color with
  | None => tr = [] /\ reply = EmbedInvalidColor
  | Some c =>
      exists k sent failed,
        reply = EmbedSent sent count failed (Qeq_bool delay 0 && (1 <? count)%Z) /\
        embed_sends tr =
          map (fun j => (j, title, description, c, embed_footer_text count j)) (seq 0 k) /\
        (k <= Z.to_nat count)%nat /\ (sent + failed)%Z = Z.of_nat k /\
        ((k < Z.to_nat count)%nat -> exists j, k = S j /\ esend j = SendForbidden)
  end.
Proof.
  intros Hc Hd. unfold send_embed.
  destruct (Z.ltb_spec count 1); [lia|]. destruct (Z.ltb_spec 50 count); [lia|].
  apply Qle_bool_iff in Hd. rewrite Hd. cbn [orb negb].
  destruct (parse_color color) as [c|]; [|done].
  pose proof (embed_loop_shape esend title description c count delay (Z.to_nat count) 0 0 0) as Hshape.
  destruct (embed_loop esend title description c count delay 0 (Z.to_nat count) 0 0) as [[tr s] f].
  destruct Hshape as (k & Ha & Hk & _ & Hsf & _ & Hl).
  exists k, s, f. split; [done|]. split; [done|]. split; [done|]. split; [lia|exact Hl].
Qed.

Lemma send_embed_uses_parsed_color_witness :
  ((1 <= 3 <= 50)%Z /\ (0 <= 0)%Q) /\
  let '(tr, reply) := send_embed refuse_third "Notice" "Maintenance tonight" (Some "#ff0000") 3 0 in
  match parse_color (Some "#ff0000") with
  | None => tr = [] /\ reply = EmbedInvalidColor
  | Some c =>
      exists k sent failed,
        reply = EmbedSent sent 3 failed (Qeq_bool 0 0 && (1 <? 3)%Z) /\
        embed_sends tr =
          map (fun j => (j, "Notice", "Maintenance tonight", c, embed_footer_text 3 j)) (seq 0 k) /\
        (k <= Z.to_nat 3)%nat /\ (sent + failed)%Z = Z.of_nat k /\
        ((k < Z.to_nat 3)%nat -> exists j, k = S j /\ refuse_third j = SendForbidden)
  end.
Proof.
  split; [split; [lia|vm_compute; discriminate]|].
  apply send_embed_uses_parsed_color; [lia|vm_compute; discriminate].
Defined.

Lemma existsb_filter_length (p : nat -> bool) (l : list nat) :
  (0 <? Z.of_nat (length (List.filter p l)))%Z = existsb p l.
Proof.
  induction l as [|x l IH]; [done|]. simpl.
  destruct (p x); simpl; [apply Z.ltb_lt; lia|exact IH].
Qed.

Section BroadcastFacts.
Variable bsend : Z -> Z -> nat -> SendOutcome.
Variable message : string.
Variable embed_format : bool.
Variable count : Z.
Variable delay : Q.
Hypothesis count_nonneg : (0 <= count)%Z.

(** A guild counts among the servers reached when a channel is picked in
    it and one of its [count] sends succeeds. *)
Definition broadcast_reaches (gg : Z * Guild) : bool :=
  match pick_channel gg.2 with
  | Some ch => existsb (fun j => is_send_ok (bsend gg.1 (chan_id ch) j)) (seq 0 (Z.to_nat count))
  | None => false
  end.

Lemma broadcast_sends_totals (gid : Z) (ch : Channel) (n i : nat) (s0 f0 : Z) :
  let '(tr, s, f) := broadcast_sends bsend message embed_format count delay gid ch i n s0 f0 in
  s = (s0 + Z.of_nat (length (List.filter (fun j => is_send_ok (bsend gid (chan_id ch) j)) (seq i n))))%Z /\
  (s + f = s0 + f0 + Z.of_nat n)%Z.
Proof.
  revert i s0 f0; induction n as [|n IH]; intros i s0 f0; [simpl; lia|].
  cbn [broadcast_sends]. rewrite filter_seq_cons, length_app.
  destruct (bsend gid (chan_id ch) i) as [| |code|];
    [specialize (IH (S i) (s0 + 1)%Z f0)|specialize (IH (S i) s0 (f0 + 1)%Z)
    |specialize (IH (S i) s0 (f0 + 1)%Z)|specialize (IH (S i) s0 (f0 + 1)%Z)];
    destruct (broadcast_sends _ _ _ _ _ _ _ (S i) n _ _) as [[tr s] f];
    destruct IH as [Hs Hsf]; simpl; lia.
Qed.

Lemma broadcast_fold_totals (guilds : list (Z * Guild)) (bs : BroadcastState) :
  let bs' := fold_left (broadcast_step bsend message embed_format count delay) guilds bs in
  (bc_sent bs' + bc_failed bs' = bc_sent bs + bc_failed bs + count * Z.of_nat (length guilds))%Z /\
  bc_reached bs' = (bc_reached bs + Z.of_nat (length (List.filter broadcast_reaches guilds)))%Z.
Proof.
  revert bs; induction guilds as [|[gid g] guilds IH]; intros bs; [simpl; lia|].
  cbn [fold_left]. destruct (IH (broadcast_step bsend message embed_format count delay bs (gid, g)))
    as [H1 H2].
  rewrite H1, H2. unfold broadcast_step, broadcast_reaches. cbn [fst snd List.filter length].
  destruct (pick_channel g) as [ch|]; cbn [bc_sent bc_failed bc_reached].
  - pose proof (broadcast_sends_totals gid ch (Z.to_nat count) 0 0 0) as Ht.
    destruct (broadcast_sends _ _ _ _ _ _ _ 0 (Z.to_nat count) 0 0) as [[tr s] f].
    destruct Ht as [Hs Hsf]. cbn [bc_sent bc_failed bc_reached].
    rewrite <- (existsb_filter_length _ (seq 0 (Z.to_nat count))).
    set (m := Z.of_nat (length (List.filter _ (seq 0 (Z.to_nat count))))) in *.
    assert (s = m) as -> by lia.
    split; [lia|]. destruct (0 <? m)%Z; simpl; lia.
  - split; [lia|]. done.
Qed.
End BroadcastFacts.

(** X14: once its checks pass, [broadcast] makes [count] attempts for
    every guild (a guild with no usable channel counts them all as
    failed), so sent plus failed is [count] times the number of guilds;
    the servers reached are the guilds with a picked channel where at
    least one of the [count] sends succeeded. *)
Theorem broadcast_totals_and_reach (bsend : Z -> Z -> nat -> SendOutcome) (message : string)
    (embed_format : bool) (count : Z) (delay : Q) (guilds : list (Z * Guild)) :
  (1 <= count <= 10)%Z -> (0 <= delay)%Q ->
  let '(tr, reply) := broadcast bsend message embed_format count delay guilds in
  exists sent failed,
    reply = BroadcastDone (Z.of_nat (length (List.filter (broadcast_reaches bsend count) guilds)))
              (Z.of_nat (length guilds)) sent failed (Qeq_bool delay 0 && (1 <? count)%Z) /\
    (sent + failed = count * Z.of_nat (length guilds))%Z.
Proof.
  intros Hc Hd. unfold broadcast.
  destruct (Z.ltb_spec count 1); [lia|]. destruct (Z.ltb_spec 10 count); [lia|].
  apply Qle_bool_iff in Hd. rewrite Hd. cbn [orb negb].
  destruct (broadcast_fold_totals bsend message embed_format count delay ltac:(lia) guilds
              (mkBroadcastState 0 0 0 [])) as [H1 H2].
  eexists _, _. split; [|exact H1]. by rewrite H2.
Qed.

Definition sample_guilds : list (Z * Guild) :=
  [(1%Z, mkGuild "alpha" (Some (mkChannel 10 true)) []);
   (2%Z, mkGuild "beta" (Some (mkChannel 20 false)) [mkChannel 21 false])].

Lemma broadcast_totals_and_reach_witness :
  ((1 <= 2 <= 10)%Z /\ (0 <= 0)%Q) /\
  let '(tr, reply) := broadcast (fun _ _ j => refuse_third j) "hi" false 2 0 sample_guilds in
  exists sent failed,
    reply = BroadcastDone (Z.of_nat (length (List.filter
                              (broadcast_reaches (fun _ _ j => refuse_third j) 2) sample_guilds)))
              (Z.of_nat (length sample_guilds)) sent failed (Qeq_bool 0 0 && (1 <? 2)%Z) /\
    (sent + failed = 2 * Z.of_nat (length sample_guilds))%Z.
Proof.
  split; [split; [lia|vm_compute; discriminate]|].
  apply broadcast_totals_and_reach; [lia|vm_compute; discriminate].
Defined.

Lemma dict_set_keys (k : Z) (v : GuildResult) (d : list (Z * GuildResult)) :
  NoDup (map fst d) ->
  NoDup (map fst (dict_set k v d)) /\
  (forall g, In g (map fst (dict_set k v d)) <-> g = k \/ In g (map fst d)).
Proof.
  induction d as [|[k' v'] d IH]; intros Hnd.
  - simpl. split; [apply NoDup_singleton|]. intros g. simpl. intuition.
  - inversion Hnd as [|? ? Hk' Hnd']; subst. simpl.
    destruct (Z.eqb_spec k k') as [->|Hne].
    + split; [by constructor|]. intros g. simpl. intuition.
    + destruct (IH Hnd') as [IH1 IH2]. simpl. split.
      * constructor; [|done]. rewrite list_elem_of_In, IH2. intros [?|Hin]; [congruence|].
        apply Hk'. by apply list_elem_of_In.
      * intros g. rewrite IH2. intuition.
Qed.

Section MultiTotals.
Variable get_guild : Z -> option Guild.
Variable msend : Z -> Z -> nat -> SendOutcome.
Variable message : string.
Variable embed_format : bool.
Variable count : Z.
Variable delay : Q.
Hypothesis count_nonneg : (0 <= count)%Z.

Lemma guild_sends_totals (gid : Z) (g : Guild) (ch : Channel) (n i : nat) (s0 f0 : Z) :
  let '(tr, s, f) := guild_sends msend message embed_format count delay gid g ch i n s0 f0 in
  (s + f = s0 + f0 + Z.of_nat n)%Z.
Proof.
  revert i s0 f0; induction n as [|n IH]; intros i s0 f0; [simpl; lia|].
  cbn [guild_sends].
  destruct (msend gid (chan_id ch) i) as [| |code|];
    [specialize (IH (S i) (s0 + 1)%Z f0)|specialize (IH (S i) s0 (f0 + 1)%Z)
    |specialize (IH (S i) s0 (f0 + 1)%Z)|specialize (IH (S i) s0 (f0 + 1)%Z)];
    destruct (guild_sends _ _ _ _ _ _ _ _ (S i) n _ _) as [[tr s] f]; lia.
Qed.

Lemma multi_fold_totals (n : nat) (ids : list Z) (ms : MultiState) :
  NoDup (map fst (results ms)) ->
  let ms' := fold_left (multi_step get_guild msend message embed_format count delay n) ids ms in
  (total_sent ms' + total_failed ms' = total_sent ms + total_failed ms + count * Z.of_nat (length ids))%Z /\
  NoDup (map fst (results ms')) /\
  (forall g, In g (map fst (results ms')) <-> In g ids \/ In g (map fst (results ms))).
Proof.
  revert ms; induction ids as [|gid ids IH]; intros ms Hnd.
  - simpl. split; [lia|]. split; [done|]. intros g. intuition.
  - cbn [fold_left].
    set (ms1 := multi_step get_guild msend message embed_format count delay n ms gid).
    destruct (multi_step_shape get_guild msend message embed_format count delay n ms gid)
      as (v & Hr & _).
    fold ms1 in Hr. destruct (dict_set_keys gid v (results ms) Hnd) as [Hnd1 Hk1].
    rewrite <- Hr in Hnd1, Hk1.
    assert (total_sent ms1 + total_failed ms1 = total_sent ms + total_failed ms + count)%Z as Ht.
    { unfold ms1, multi_step. destruct (get_guild gid) as [g|]; [|simpl; lia].
      destruct (pick_channel g) as [ch|]; [|simpl; lia].
      pose proof (guild_sends_totals gid g ch (Z.to_nat count) 0 0 0) as Hg.
      destruct (guild_sends _ _ _ _ _ _ _ _ 0 (Z.to_nat count) 0 0) as [[tr s] f].
      simpl. lia. }
    destruct (IH ms1 Hnd1) as (H1 & H2 & H3). split; [simpl length; lia|]. split; [done|].
    intros g. rewrite H3, Hk1. simpl. intuition.
Qed.
End MultiTotals.

(** X15: once its checks pass, [multisend] makes [count] attempts for
    every id of the list, repeated ids included (an unknown server or
    one without a usable channel counts them all as failed), so the
    totals add up to [count] times the number of ids; the report has
    exactly one line per distinct id. *)
Theorem multi_send_totals_and_lines (get_guild : Z -> option Guild)
    (msend : Z -> Z -> nat -> SendOutcome) (message : string) (embed_format : bool)
    (count : Z) (delay : Q) (ids : list Z) :
  (1 <= count <= 20)%Z -> (0 <= delay)%Q -> (length ids <= 20)%nat ->
  let '(tr, reply) := multi_send get_guild msend message embed_format count delay (Some ids) in
  exists res ts tf,
    reply = MultiResults res ts tf (Qeq_bool delay 0 && (1 <? count)%Z) /\
    (ts + tf = count * Z.of_nat (length ids))%Z /\
    NoDup (map fst res) /\ (forall g, In g (map fst res) <-> In g ids).
Proof.
  intros Hc Hd Hn. unfold multi_send.
  destruct (Z.ltb_spec count 1); [lia|]. destruct (Z.ltb_spec 20 count); [lia|].
  apply Qle_bool_iff in Hd. rewrite Hd. cbn [orb negb].
  destruct (Nat.ltb_spec 20 (length ids)); [lia|].
  unfold multi_loop.
  destruct (multi_fold_totals get_guild msend message embed_format count delay ltac:(lia)
              (length ids) ids (mkMultiState [] 0 0 []) ltac:(constructor)) as (Ht & Hnd & Hk).
  eexists _, _, _. split; [reflexivity|]. split; [simpl in Ht; lia|]. split; [exact Hnd|].
  intros g. rewrite Hk. simpl. intuition.
Qed.

Lemma multi_send_totals_and_lines_witness :
  ((1 <= 2 <= 20)%Z /\ (0 <= 0)%Q /\ (length [1%Z; 3%Z; 1%Z] <= 20)%nat) /\
  let '(tr, reply) := multi_send (fun gid => if (gid =? 1)%Z then Some (mkGuild "alpha"
                                     (Some (mkChannel 10 true)) []) else None)
                        (fun _ _ j => refuse_third j) "hi" false 2 0 (Some [1%Z; 3%Z; 1%Z]) in
  exists res ts tf,
    reply = MultiResults res ts tf (Qeq_bool 0 0 && (1 <? 2)%Z) /\
    (ts + tf = 2 * Z.of_nat (length [1%Z; 3%Z; 1%Z]))%Z /\
    NoDup (map fst res) /\ (forall g, In g (map fst res) <-> In g [1%Z; 3%Z; 1%Z]).
Proof.
  split; [split; [lia|split; [vm_compute; discriminate|simpl; lia]]|].
  apply multi_send_totals_and_lines; [lia|vm_compute; discriminate|simpl; lia].
Defined.

(* ------------------------------------------------------------------ *)
(** ** Splitting the [multisend] report *)

Lemma py_chunks_prefix {A} (n m : nat) (l : list A) :
  concat (map (fun i => take n (drop i l)) (map (fun k => k * n) (seq 0 m))) = take (m * n) l.
Proof.
  induction m as [|m IH]; [done|].
  rewrite seq_S, !map_app, concat_app, IH. simpl. rewrite app_nil_r.
  rewrite take_take_drop. f_equal. lia.
Qed.

Lemma py_chunks_count_bound (n len : nat) :
  0 < n -> len <= (len + n - 1) / n * n /\ (forall k, k < (len + n - 1) / n -> k * n < len).
Proof.
  intros Hn. pose proof (Nat.div_mod (len + n - 1) n ltac:(lia)) as Hdm.
  pose proof (Nat.mod_upper_bound (len + n - 1) n ltac:(lia)) as Hmod.
  set (q := (len + n - 1) / n) in *. set (r := (len + n - 1) mod n) in *.
  split; [nia|]. intros k Hk. nia.
Qed.

(** [''.join(parts) == result_msg] for every chunk width. *)
Lemma py_chunks_concat {A} (n : nat) (l : list A) :
  0 < n -> concat (py_chunks n l) = l.
Proof.
  intros Hn. unfold py_chunks. rewrite py_chunks_prefix.
  apply take_ge. apply (py_chunks_count_bound n (length l) Hn).
Qed.

Lemma py_chunks_parts {A} (n : nat) (l : list A) :
  0 < n ->
  length (py_chunks n l) = (length l + n - 1) / n /\
  Forall (fun p => 0 < length p <= n) (py_chunks n l).
Proof.
  intros Hn. unfold py_chunks. split; [by rewrite !length_map, length_seq|].
  apply List.Forall_forall. intros p Hp.
  apply in_map_iff in Hp as (i & <- & Hi). apply in_map_iff in Hi as (k & <- & Hk).
  apply in_seq in Hk. destruct (py_chunks_count_bound n (length l) Hn) as [_ Hb].
  specialize (Hb k ltac:(lia)). rewrite length_take, length_drop. lia.
Qed.

(** X16: the follow-up messages of [multisend] put back together give
    the whole report, each is at most 2000 code points long, and a report
    longer than 2000 is cut into ceil(len / 1900) non-empty pieces of at
    most 1900 code points. *)
Theorem followup_parts_reassemble {A} (msg : list A) :
  concat (followup_parts msg) = msg /\
  Forall (fun p => length p <= 2000) (followup_parts msg) /\
  (2000 < length msg ->
   length (followup_parts msg) = (length msg + 1899) / 1900 /\
   Forall (fun p => 0 < length p <= 1900) (followup_parts msg)).
Proof.
  unfold followup_parts. destruct (Nat.ltb_spec 2000 (length msg)) as [Hl|Hl].
  - destruct (py_chunks_parts 1900 msg ltac:(lia)) as [Hn Hp].
    split; [apply py_chunks_concat; lia|]. split.
    + apply (Forall_impl _ _ _ Hp). lia.
    + intros _. split; [|exact Hp].
      rewrite Hn. by replace (length msg + 1900 - 1) with (length msg + 1899) by lia.
  - split; [simpl; apply app_nil_r|]. split; [by constructor|]. lia.
Qed.

(* ------------------------------------------------------------------ *)
(** ** Dispatch *)

Lemma find_command_some (OWNER_ID : Z) (name : string) (c : AppCommand) :
  find_command OWNER_ID name = Some c -> In c (tree_commands OWNER_ID) /\ cmd_name c = name.
Proof.
  unfold find_command. intros Hf. apply List.find_some in Hf as [Hin Hn].
  split; [done|]. by apply bool_decide_eq_true in Hn.
Qed.

Lemma find_command_none (OWNER_ID : Z) (name : string) :
  find_command OWNER_ID name = None ->
  existsb (String.eqb name) (map cmd_name (tree_commands OWNER_ID)) = false.
Proof.
  unfold find_command. intros Hf. apply not_true_iff_false. intros Hex.
  apply existsb_exists in Hex as (y & Hy & Heq). apply String.eqb_eq in Heq. subst y.
  apply in_map_iff in Hy as (c & Hc & Hin).
  pose proof (List.find_none _ _ Hf c Hin) as Hn. simpl in Hn.
  rewrite bool_decide_eq_true_2 in Hn; [discriminate|done].
Qed.

(** X17: the callback of a slash command runs exactly when its name is
    registered and the caller is the owner or the command is one of the
    public ones (outside the owner-only list of the error handler);
    otherwise no callback runs at all. *)
Theorem dispatch_runs_callback_iff (OWNER_ID user : Z) (name : string) :
  (dispatch OWNER_ID user name = [DRunCallback name] <->
   existsb (String.eqb name) (map cmd_name (tree_commands OWNER_ID)) = true /\
   (Z.eqb user OWNER_ID = true \/ existsb (String.eqb name) owner_commands = false)) /\
  (dispatch OWNER_ID user name = [DRunCallback name] \/
   Forall (fun e => is_callback e = false) (dispatch OWNER_ID user name)).
Proof.
  unfold dispatch. destruct (find_command OWNER_ID name) as [c|] eqn:Hf.
  - apply find_command_some in Hf as [Hin <-].
    cbn [tree_commands In] in Hin.
    repeat destruct Hin as [<-|Hin]; try contradiction;
      cbn [cmd_name cmd_checks forallb]; unfold is_owner;
      destruct (Z.eqb user OWNER_ID); cbn; try destruct (bool_decide _);
      intuition (try discriminate; repeat constructor).
  - rewrite (find_command_none OWNER_ID name Hf). cbn. split.
    + split; [discriminate|intros [? _]; discriminate].
    + right. repeat constructor.
Qed.

(** X18: no caller and no command name ever gets the "You don't have
    permission" reply: the only checks registered are [is_owner] on
    commands that the error handler lists as owner-only. *)
Theorem dispatch_never_no_permission (OWNER_ID user : Z) (name : string) :
  ~ In (DResponse msg_no_permission true) (dispatch OWNER_ID user name).
Proof.
  unfold dispatch. destruct (find_command OWNER_ID name) as [c|] eqn:Hf.
  - apply find_command_some in Hf as [Hin _].
    cbn [tree_commands In] in Hin.
    repeat destruct Hin as [<-|Hin]; try contradiction;
      cbn [cmd_name cmd_checks forallb]; unfold is_owner;
      destruct (Z.eqb user OWNER_ID); cbn; try case_bool_decide as Hm;
      try (exfalso; apply Hm; unfold owner_commands; repeat constructor);
      intros Hr; repeat destruct Hr as [Hr|Hr]; try contradiction; try discriminate Hr;
      injection Hr as Hs; unfold msg_owner_only, msg_no_permission in Hs; discriminate Hs.
  - cbn. intros Hr. repeat destruct Hr as [Hr|Hr]; try contradiction; discriminate Hr.
Qed.

(* ------------------------------------------------------------------ *)
(** ** Configuration commands and the poller's selection *)

(** X19: [setupwebhook] writes only the row of its own (guild, service)
    key; without the permission, or when creating the webhook raises,
    the table is left unchanged. *)
Theorem setup_webhook_touches_own_key (manage_webhooks : bool) (guild channel : Z)
    (service : string) (ping_role : option Z) (created : CreateWebhook) (st : Store) :
  let '(st', reply) := setup_webhook manage_webhooks guild channel service ping_role created st in
  (forall k, k <> (guild, service) -> st' !! k = st !! k) /\
  (manage_webhooks = false \/ created = WebhookForbidden \/ created = WebhookError -> st' = st).
Proof.
  unfold setup_webhook. destruct manage_webhooks; simpl; [|split; [done|by intros _]].
  destruct created as [url| |]; simpl; [|split; [done|by intros _]..].
  split.
  - intros k Hk. unfold sql_insert_or_replace.
    rewrite lookup_insert_ne by congruence. by rewrite lookup_delete_ne by congruence.
  - intros [H|[H|H]]; discriminate H.
Qed.

(** X20: a successful [setupwebhook] puts an enabled row with no
    incident marker under its key, so the next poller tick selects it. *)
Theorem setup_webhook_enters_poll (guild channel : Z) (service url : string)
    (ping_role : option Z) (st : Store) :
  let '(st', reply) := setup_webhook true guild channel service ping_role (WebhookCreated url) st in
  ((guild, service), mkRow channel url ping_role 1 None) ∈ select_enabled st' /\
  reply = ReplySetupComplete service ping_role.
Proof.
  simpl. split; [|done]. apply elem_of_select_enabled. split; [|done].
  unfold sql_insert_or_replace. by rewrite lookup_insert_eq.
Qed.

(** X21: toggling a subscription whose [enabled] is 0 or 1 moves it in
    or out of the rows the poller selects, and leaves the selection of
    every other key as it was. *)
Theorem toggle_flips_poll_selection (guild : Z) (service : string) (st : Store) (r : Row) :
  st !! (guild, service) = Some r -> (enabled r = 0 \/ enabled r = 1)%Z ->
  let st' := (toggle_webhook true guild service st).1 in
  ((guild, service) ∈ (select_enabled st').*1 <-> (guild, service) ∉ (select_enabled st).*1) /\
  (forall k, k <> (guild, service) ->
     k ∈ (select_enabled st').*1 <-> k ∈ (select_enabled st).*1).
Proof.
  intros Hr He. unfold toggle_webhook. simpl. rewrite Hr. simpl.
  unfold sql_update_enabled. split.
  - rewrite !select_enabled_keys. setoid_rewrite lookup_alter_eq. rewrite Hr. simpl.
    split.
    + intros (r' & Hr' & He') (r'' & Hr'' & He''). injection Hr' as <-. injection Hr'' as <-.
      unfold py_not_int in He'. destruct (Z.eqb_spec (enabled r) 0); simpl in He'; lia.
    + intros Hn. exists (set_enabled r (py_not_int (enabled r))). split; [done|].
      simpl. unfold py_not_int. destruct (Z.eqb_spec (enabled r) 0); [done|].
      exfalso. apply Hn. exists r. split; [done|]. lia.
  - intros k Hk. rewrite !select_enabled_keys. by rewrite lookup_alter_ne by congruence.
Qed.

Lemma toggle_flips_poll_selection_witness :
  let r := mkRow 7 "https://example.invalid/hook" None 1 None in
  ({[(5%Z, "vercel"%string) := r]} : Store) !! (5%Z, "vercel"%string) = Some r /\
  (enabled r = 0 \/ enabled r = 1)%Z /\
  let st' := (toggle_webhook true 5 "vercel" {[(5%Z, "vercel"%string) := r]}).1 in
  ((5%Z, "vercel"%string) ∈ (select_enabled st').*1 <->
     (5%Z, "vercel"%string) ∉ (select_enabled {[(5%Z, "vercel"%string) := r]}).*1) /\
  (forall k, k <> (5%Z, "vercel"%string) ->
     k ∈ (select_enabled st').*1 <-> k ∈ (select_enabled {[(5%Z, "vercel"%string) := r]}).*1).
Proof.
  intros r.
  assert (({[(5%Z, "vercel"%string) := r]} : Store) !! (5%Z, "vercel"%string) = Some r) as H
    by apply lookup_singleton_eq.
  split; [exact H|]. split; [right; reflexivity|].
  exact (toggle_flips_poll_selection 5 "vercel" _ r H (or_intror eq_refl)).
Defined.

(* ------------------------------------------------------------------ *)
(** ** Two ticks in a row *)

(** X22: two poller ticks in a row that fetch the same status data make
    at most one accepted delivery for a subscription between them: once
    a delivery is accepted the marker holds the newest incident id, and
    the second tick sees it unchanged. *)
Theorem two_ticks_deliver_at_most_once (fetch : string -> option Snapshot)
    (post1 post2 : Key -> string -> Payload -> PostOutcome) (st : Store) (k : Key) :
  let '(st1, tr1, _) := check_and_post_incidents fetch post1 st in
  let '(st2, tr2, _) := check_and_post_incidents fetch post2 st1 in
  accepted_posts k tr1 + accepted_posts k tr2 <= 1.
Proof.
  destruct (st !! k) as [r|] eqn:Hk.
  - pose proof (tick_row fetch post1 st k r Hk) as H1.
    destruct (check_and_post_incidents fetch post1 st) as [[st1 tr1] c1].
    destruct H1 as [(Ha1 & _ & Hs1) | (Ha1 & _ & _ & data & latest & older & Hf & Hi & Hne & Hs1)].
    + pose proof (tick_row fetch post2 st1 k r Hs1) as H2.
      destruct (check_and_post_incidents fetch post2 st1) as [[st2 tr2] c2].
      destruct H2 as [(Ha2 & _) | (Ha2 & _)]; lia.
    + pose proof (tick_row fetch post2 st1 k _ Hs1) as H2.
      destruct (check_and_post_incidents fetch post2 st1) as [[st2 tr2] c2].
      destruct H2 as [(Ha2 & _) | (_ & _ & _ & data' & latest' & older' & Hf' & Hi' & Hne' & _)];
        [lia|].
      rewrite Hf in Hf'. injection Hf' as <-. rewrite Hi in Hi'. injection Hi' as <- <-.
      by destruct Hne'.
  - pose proof (tick_no_row fetch post1 st k Hk) as H1.
    destruct (check_and_post_incidents fetch post1 st) as [[st1 tr1] c1].
    destruct H1 as [Hs1 He1].
    pose proof (tick_no_row fetch post2 st1 k Hs1) as H2.
    destruct (check_and_post_incidents fetch post2 st1) as [[st2 tr2] c2].
    destruct H2 as [_ He2]. unfold accepted_posts. rewrite He1, He2. simpl. lia.
Qed.
